(** * native_package_install.py: a shallow embedding and its properties

    The program vendors Elm packages: it reads a manifest, downloads one
    archive per package from GitHub, merges the packages' source directories
    into the project's [elm-package.json] files and rewrites the native
    identifier prefix of the vendored code.

    The program is Python 2. A string of the model is a sequence of the 256
    characters of Latin-1; it stands for a byte string or for a unicode
    string, as the program has it: the strings of a JSON document, hence
    the fields of a package descriptor, the repository and the declared
    source directories, are unicode; the paths given on the command line
    and the results of [str.format] are byte strings. Where the program
    mixes the two kinds Python converts with the ASCII codec, and the model
    raises the [UnicodeDecodeError] or [UnicodeEncodeError] that Python
    raises when a character is not ASCII.

    JSON values are the values [json.load] returns, and the file system,
    the network and the spawned processes are an explicit [world] threaded
    through every call. The file system is known by path: the model covers
    the paths for which the string tells the file, that is the relative
    paths in which no component is empty, [.] or [..] ([plain_path]);
    there are no links and the names are case-sensitive. A call of the
    system on any other path stops the run with [OutOfScope], which is no
    exception of the program: the model says nothing of such runs.
    A JSON object is the list of its items in the order Python iterates
    them (the file's order for an [OrderedDict]); its keys are distinct.
    A file is known by the document it holds and the indentation it was
    printed with, not by its characters. *)

From Stdlib Require Import Ascii String.
From stdpp Require Import base option list strings gmap.

(** ** Python strings *)

Module Str.

Definition eqb_ascii (a b : ascii) : bool := bool_decide (a = b).

(** [a in chars] for a one-character string [a]. *)
Fixpoint mem (a : ascii) (chars : string) : bool :=
  match chars with
  | EmptyString => false
  | String c rest => eqb_ascii a c || mem a rest
  end.

(** [s.count(c)] for a one-character separator. *)
Fixpoint count (c : ascii) (s : string) : nat :=
  match s with
  | EmptyString => 0
  | String a rest => (if eqb_ascii a c then 1 else 0) + count c rest
  end.

(** [s.split(c)] for a one-character separator: one more segment than
    there are separators, empty segments kept. *)
Fixpoint split (c : ascii) (s : string) : list string :=
  match s with
  | EmptyString => [EmptyString]
  | String a rest =>
      if eqb_ascii a c then EmptyString :: split c rest
      else match split c rest with
           | [] => [String a EmptyString]
           | seg :: segs => String a seg :: segs
           end
  end.

(** [s.lstrip(chars)]: drops the longest prefix made of characters of the
    set [chars]. *)
Fixpoint lstrip (chars : string) (s : string) : string :=
  match s with
  | EmptyString => EmptyString
  | String a rest => if mem a chars then lstrip chars rest else s
  end.

(** [s.rstrip(chars)]: drops the longest suffix made of characters of the
    set [chars]. *)
Fixpoint rstrip (chars : string) (s : string) : string :=
  match s with
  | EmptyString => EmptyString
  | String a rest =>
      match rstrip chars rest with
      | EmptyString => if mem a chars then EmptyString else String a EmptyString
      | kept => String a kept
      end
  end.

(** [s.replace(a, b)] for one-character [a] and [b]. *)
Fixpoint replace (a b : ascii) (s : string) : string :=
  match s with
  | EmptyString => EmptyString
  | String c rest => String (if eqb_ascii c a then b else c) (replace a b rest)
  end.

(** [s.startswith(c)] and [s.endswith(c)] for a one-character [c]. *)
Definition startswith (c : ascii) (s : string) : bool :=
  match s with
  | EmptyString => false
  | String a _ => eqb_ascii a c
  end.

Fixpoint endswith (c : ascii) (s : string) : bool :=
  match s with
  | EmptyString => false
  | String a EmptyString => eqb_ascii a c
  | String _ rest => endswith c rest
  end.

(** [s * n]. *)
Fixpoint times (s : string) (n : nat) : string :=
  match n with
  | 0 => EmptyString
  | S k => s +:+ times s k
  end.

(** [needle in hay] on two strings: substring test. *)
Fixpoint contains (needle hay : string) : bool :=
  String.prefix needle hay ||
  match hay with
  | EmptyString => false
  | String _ rest => contains needle rest
  end.

(** The characters of a string, each as a one-character string. *)
Fixpoint chars (s : string) : list string :=
  match s with
  | EmptyString => []
  | String a rest => String a EmptyString :: chars rest
  end.

(** The characters the ASCII codec converts: those below 128. *)
Definition ascii7 (a : ascii) : bool :=
  match a with
  | Ascii _ _ _ _ _ _ _ high => negb high
  end.

Fixpoint is_ascii (s : string) : bool :=
  match s with
  | EmptyString => true
  | String a rest => ascii7 a && is_ascii rest
  end.

End Str.

(** [posixpath.join(a, b)] on two strings of the same kind: an absolute
    [b] replaces [a]; a separator is inserted unless [a] is empty or already
    ends with one. *)
Definition os_path_join (a b : string) : string :=
  if Str.startswith "/" b then b
  else if bool_decide (a = EmptyString) || Str.endswith "/" a then a +:+ b
  else a +:+ "/" +:+ b.

(** A path whose string tells the file: relative, and no component is
    empty, [.] or [..]. *)
Definition plain_name (c : string) : bool :=
  negb (bool_decide (c = "")) && negb (bool_decide (c = "."))
  && negb (bool_decide (c = "..")).

Definition plain_path (path : string) : bool :=
  forallb plain_name (Str.split "/" path).

(** ** JSON values, exceptions, results *)

#[local] Unset Elimination Schemes.
Inductive json : Type :=
  | JNull
  | JBool (b : bool)
  | JNum (literal : string)
  | JStr (s : string)
  | JArr (items : list json)
  | JObj (fields : list (string * json)).
#[local] Set Elimination Schemes.

Inductive errno : Type :=
  | EEXIST | EACCES | ENOENT | ENOTDIR | EISDIR | ENOSPC | EIO.

(** The exceptions the program can meet; all are subclasses of [Exception],
    but for [OutOfScope], which is no exception of Python: it ends a run
    that left the model, and no handler of the program catches it. *)
Inductive exn : Type :=
  | ValueError
  | KeyError (key : string)
  | TypeError
  | AttributeError
  | UnicodeDecodeError
  | UnicodeEncodeError
  | IOError (e : errno)
  | OSError (e : errno)
  | URLError
  | HTTPException
  | SocketError
  | ReadError
  | OutOfScope.

Inductive result (A : Type) : Type :=
  | Ok (a : A)
  | Raise (e : exn).
Arguments Ok {A} a.
Arguments Raise {A} e.

Definition rbind {A B} (r : result A) (k : A -> result B) : result B :=
  match r with
  | Ok a => k a
  | Raise e => Raise e
  end.

(** [posixpath.join(a, b)] of a byte string [a] and a unicode string [b]:
    when [b] is appended to a non-empty [a], [a] is decoded, which fails on
    a character that is not ASCII. *)
Definition os_path_join_mixed (a b : string) : result string :=
  if Str.startswith "/" b || bool_decide (a = EmptyString) || Str.is_ascii a
  then Ok (os_path_join a b)
  else Raise UnicodeDecodeError.

(** [template.format(...)] with a byte-string template: the result is the
    byte string [s], and every unicode argument had to be encoded, which
    fails on a character that is not ASCII; [encoded] tells whether all
    could be. *)
Definition py_format (encoded : bool) (s : string) : result string :=
  if encoded then Ok s else Raise UnicodeEncodeError.

(** A package descriptor, the dict [{'namespace', 'name', 'version'}]; the
    namespace and the name are unicode strings. *)
Record package : Type := Package {
  namespace : string;
  name : string;
  version : json;
}.

(** [a, b = xs]: unpacking into exactly two names. *)
Definition unpack2 (xs : list string) : result (string * string) :=
  match xs with
  | [a; b] => Ok (a, b)
  | _ => Raise ValueError
  end.

(** [raw.items()]. *)
Definition dict_items (raw : json) : result (list (string * json)) :=
  match raw with
  | JObj fields => Ok fields
  | _ => Raise AttributeError
  end.

Fixpoint parse_items (items : list (string * json)) (acc : list package)
  : result (list package) :=
  match items with
  | [] => Ok acc
  | (key, ver) :: rest =>
      rbind (unpack2 (Str.split "/" key)) (fun '(ns, package_name) =>
      parse_items rest (acc ++ [Package ns package_name ver]))
  end.

Definition parse_json (raw : json) : result (list package) :=
  rbind (dict_items raw) (fun items => parse_items items []).

(** [data[key]]. *)
Fixpoint assoc (key : string) (fields : list (string * json)) : option json :=
  match fields with
  | [] => None
  | (k, v) :: rest => if bool_decide (k = key) then Some v else assoc key rest
  end.

Definition getitem (data : json) (key : string) : result json :=
  match data with
  | JObj fields =>
      match assoc key fields with
      | Some v => Ok v
      | None => Raise (KeyError key)
      end
  | _ => Raise TypeError
  end.

(** The object [data] after the value stored under [key] became [v]; the
    position of the key is kept. *)
Fixpoint assoc_set (key : string) (v : json) (fields : list (string * json))
  : list (string * json) :=
  match fields with
  | [] => []
  | (k, old) :: rest =>
      if bool_decide (k = key) then (k, v) :: rest
      else (k, old) :: assoc_set key v rest
  end.

Definition with_item (data : json) (key : string) (v : json) : json :=
  match data with
  | JObj fields => JObj (assoc_set key v fields)
  | other => other
  end.

(** [for x in v]. *)
Definition py_iter (v : json) : result (list json) :=
  match v with
  | JArr items => Ok items
  | JStr s => Ok (JStr <$> Str.chars s)
  | JObj fields => Ok ((fun kv => JStr kv.1) <$> fields)
  | _ => Raise TypeError
  end.

Definition is_str (s : string) (v : json) : bool :=
  match v with
  | JStr t => bool_decide (t = s)
  | _ => false
  end.

(** [s in v] for a string [s]. *)
Definition py_contains (v : json) (s : string) : result bool :=
  match v with
  | JArr items => Ok (existsb (is_str s) items)
  | JStr hay => Ok (Str.contains s hay)
  | JObj fields => Ok (existsb (fun kv => bool_decide (kv.1 = s)) fields)
  | _ => Raise TypeError
  end.

(** [v.append(s)]. *)
Definition py_append (v : json) (s : string) : result json :=
  match v with
  | JArr items => Ok (JArr (items ++ [JStr s]))
  | _ => Raise AttributeError
  end.

(** [namespace_from_repo]: [lstrip] and [rstrip] take a set of characters. *)
Definition namespace_from_repo (repository : json) : result (string * string) :=
  match repository with
  | JStr s =>
      let repo_without_domain :=
        Str.rstrip ".git" (Str.lstrip "https://github.com/" s) in
      unpack2 (Str.split "/" repo_without_domain)
  | _ => Raise AttributeError
  end.

(** The native prefix, as a string. *)
Definition native_name (ns nm : string) : string :=
  "_" +:+ Str.replace "-" "_" ns +:+ "$" +:+ Str.replace "-" "_" nm.

(** [format_native_name]: owner and repo are unicode strings. *)
Definition format_native_name (ns nm : string) : result string :=
  let underscored_namespace := Str.replace "-" "_" ns in
  let underscored_name := Str.replace "-" "_" nm in
  py_format (Str.is_ascii underscored_namespace && Str.is_ascii underscored_name)
            ("_" +:+ underscored_namespace +:+ "$" +:+ underscored_name).

(** ** The world: files, directories, network, output, processes *)

Inductive member : Type :=
  | MDir
  | MJson (doc : json)
  | MBlob.

(** What a regular file holds: a JSON document (with the indentation it was
    printed with, [None] when unknown), a tar archive, or anything else,
    as a file that was opened for writing and got nothing yet. *)
Inductive content : Type :=
  | Json (indent : option nat) (doc : json)
  | Tarball (members : list (string * member))
  | Blob.

Record world : Type := World {
  files : gmap string content;          (* regular files, by path *)
  dirs : gset string;                   (* directories, by path *)
  mkdir_fault : string -> option errno; (* paths where creating a directory fails *)
  remote : string -> option content;    (* what a GET of a URL answers *)
  stdout : list string;                 (* printed lines, oldest first *)
  procs : list (list string);           (* spawned commands, oldest first *)
  read_fault : string -> option exn;    (* URLs whose answer cannot be read to its end *)
  extract_fault : string -> option exn; (* paths where extracting a member fails *)
  popen_fault : list string -> option errno; (* commands that cannot be started *)
}.

Definition set_files (f : gmap string content) (w : world) : world :=
  World f (dirs w) (mkdir_fault w) (remote w) (stdout w) (procs w)
        (read_fault w) (extract_fault w) (popen_fault w).
Definition set_dirs (d : gset string) (w : world) : world :=
  World (files w) d (mkdir_fault w) (remote w) (stdout w) (procs w)
        (read_fault w) (extract_fault w) (popen_fault w).
Definition set_stdout (o : list string) (w : world) : world :=
  World (files w) (dirs w) (mkdir_fault w) (remote w) o (procs w)
        (read_fault w) (extract_fault w) (popen_fault w).
Definition set_procs (p : list (list string)) (w : world) : world :=
  World (files w) (dirs w) (mkdir_fault w) (remote w) (stdout w) p
        (read_fault w) (extract_fault w) (popen_fault w).

(** A computation: it may change the world, and returns or raises. *)
Definition M (A : Type) : Type := world -> world * result A.

Definition ret {A} (a : A) : M A := fun w => (w, Ok a).
Definition raise {A} (e : exn) : M A := fun w => (w, Raise e).
Definition lift {A} (r : result A) : M A := fun w => (w, r).
Definition bind {A B} (m : M A) (k : A -> M B) : M B :=
  fun w =>
    match m w with
    | (w', Ok a) => k a w'
    | (w', Raise e) => (w', Raise e)
    end.

Notation "'let*' x ':=' m 'in' k" := (bind m (fun x => k))
  (at level 10, x name, m at level 100, k at level 200).
Notation "'let*' ' pat ':=' m 'in' k" :=
  (bind m (fun x => match x with pat => k end))
  (at level 10, pat pattern, m at level 100, k at level 200, only parsing).

(** [try: m except Exception: pass]. *)
Definition try_pass (m : M unit) : M unit :=
  fun w =>
    match m w with
    | (w', Raise OutOfScope) => (w', Raise OutOfScope)
    | (w', _) => (w', Ok tt)
    end.

(** [for x in xs: body x]. *)
Fixpoint for_each {A} (xs : list A) (body : A -> M unit) : M unit :=
  match xs with
  | [] => ret tt
  | x :: rest => let* _ := body x in for_each rest body
  end.

(** A loop that rebinds or mutates one local value. *)
Fixpoint fold_each {A S} (xs : list A) (body : S -> A -> M S) (s : S) : M S :=
  match xs with
  | [] => ret s
  | x :: rest => let* s' := body s x in fold_each rest body s'
  end.

(** *** Paths *)

(** The prefixes of [s] that stop right before an occurrence of [c]. *)
Fixpoint prefixes_before (c : ascii) (s : string) : list string :=
  match s with
  | EmptyString => []
  | String a rest =>
      (if Str.eqb_ascii a c then [EmptyString] else [])
      ++ (String a <$> prefixes_before c rest)
  end.

(** The directories above a path, outermost first. *)
Definition ancestors (path : string) : list string :=
  List.filter (fun q => negb (bool_decide (q = EmptyString) || Str.endswith "/" q))
              (prefixes_before "/" path).

Definition parent (path : string) : option string := last (ancestors path).

(** *** Operating system and libraries *)

Definition is_file (w : world) (path : string) : bool :=
  bool_decide (is_Some (files w !! path)).

(** [os.makedirs(path)]: creates the directory and the missing ones above it;
    fails when it exists, when something above it is a regular file, or when
    the system refuses. *)
Definition os_makedirs (path : string) : M unit :=
  fun w =>
    if negb (plain_path path) then (w, Raise OutOfScope)
    else match mkdir_fault w path with
    | Some e => (w, Raise (OSError e))
    | None =>
        if bool_decide (path ∈ dirs w) || is_file w path
        then (w, Raise (OSError EEXIST))
        else if existsb (is_file w) (ancestors path)
        then (w, Raise (OSError ENOTDIR))
        else (set_dirs (dirs w ∪ list_to_set (ancestors path) ∪ {[path]}) w, Ok tt)
    end.

(** [os.path.isdir(path)]. *)
Definition os_path_isdir (path : string) : M bool :=
  fun w =>
    if negb (plain_path path) then (w, Raise OutOfScope)
    else (w, Ok (bool_decide (path ∈ dirs w))).

(** [open(path).read()]. *)
Definition read_file (path : string) : M content :=
  fun w =>
    if negb (plain_path path) then (w, Raise OutOfScope)
    else if bool_decide (path ∈ dirs w) then (w, Raise (IOError EISDIR))
    else match files w !! path with
         | Some c => (w, Ok c)
         | None => (w, Raise (IOError ENOENT))
         end.

(** [json.load(open(path))]; the order of the keys is the file's. *)
Definition json_load (path : string) : M json :=
  let* c := read_file path in
  match c with
  | Json _ doc => ret doc
  | _ => raise ValueError
  end.

(** [open(path, 'w').write(c)]: a new file needs its directory. *)
Definition write_file (path : string) (c : content) : M unit :=
  fun w =>
    if negb (plain_path path) then (w, Raise OutOfScope)
    else if bool_decide (path ∈ dirs w) then (w, Raise (IOError EISDIR))
    else if negb (is_file w path)
            && match parent path with
               | Some q => negb (bool_decide (q ∈ dirs w))
               | None => false
               end
    then (w, Raise (IOError ENOENT))
    else (set_files (<[path := c]> (files w)) w, Ok tt).

(** [urllib2.urlopen(url)]: the answer, not read yet. *)
Definition urlopen (url : string) : M content :=
  fun w =>
    match remote w url with
    | Some body => (w, Ok body)
    | None => (w, Raise URLError)
    end.

(** [response.read()] on the answer of [url]. *)
Definition response_read (url : string) (body : content) : M content :=
  fun w =>
    match read_fault w url with
    | Some e => (w, Raise e)
    | None => (w, Ok body)
    end.

(** [tarfile.open(path).getmembers()]. *)
Definition tarfile_members (path : string) : M (list (string * member)) :=
  let* c := read_file path in
  match c with
  | Tarball members => ret members
  | _ => raise ReadError
  end.

(** [os.path.join(target, name)] of a unicode [target] and the name of a
    member, a byte string. *)
Definition member_path (target name : string) : result string :=
  if Str.startswith "/" name || Str.is_ascii name
  then Ok (os_path_join target name)
  else Raise UnicodeDecodeError.

(** What a regular member leaves in its file. *)
Definition member_content (m : member) : content :=
  match m with
  | MJson doc => Json None doc
  | _ => Blob
  end.

(** The error when something above the member is a regular file: [open]
    fails when it is the member's own directory, [os.makedirs] or
    [os.mkdir] otherwise. *)
Definition upper_error (w : world) (path : string) (m : member) : exn :=
  match m, parent path with
  | MDir, _ => OSError ENOTDIR
  | _, Some q => if is_file w q then IOError ENOTDIR else OSError ENOTDIR
  | _, None => OSError ENOTDIR
  end.

(** One member of [tar.extractall(target, members)]: the directories above
    the member that are missing are created; a directory member whose path
    exists is left as it is; a regular member is written over a file of its
    name; the errors of the system are passed to the caller. *)
Definition extract_member (target : string) (m : string * member) : M unit :=
  fun w =>
    match member_path target m.1 with
    | Raise e => (w, Raise e)
    | Ok path =>
        if negb (plain_path path) then (w, Raise OutOfScope)
        else match extract_fault w path with
        | Some e => (w, Raise e)
        | None =>
            if existsb (is_file w) (ancestors path)
            then (w, Raise (upper_error w path m.2))
            else
              let w1 := set_dirs (dirs w ∪ list_to_set (ancestors path)) w in
              match m.2 with
              | MDir =>
                  if is_file w path then (w1, Ok tt)
                  else (set_dirs (dirs w1 ∪ {[path]}) w1, Ok tt)
              | regular =>
                  if bool_decide (path ∈ dirs w) then (w1, Raise (IOError EISDIR))
                  else (set_files (<[path := member_content regular]> (files w1)) w1,
                        Ok tt)
              end
        end
    end.

(** [tar.extractall(target, members)]. *)
Definition tarfile_extractall (target : string) (members : list (string * member))
  : M unit :=
  for_each members (extract_member target).

(** [print line]. *)
Definition print (line : string) : M unit :=
  fun w => (set_stdout (stdout w ++ [line]) w, Ok tt).

(** [subprocess.Popen(argv)]: the command is started and not waited for,
    unless the system cannot start it. *)
Definition popen (argv : list string) : M unit :=
  fun w =>
    match popen_fault w argv with
    | Some e => (w, Raise (OSError e))
    | None => (set_procs (procs w ++ [argv]) w, Ok tt)
    end.

(** ** The program *)

Section Program.

(** [str(v)] of a JSON value that is not a string, as [str.format] prints a
    version that the manifest gives as a number, a list and so on. *)
Variable py_str : json -> string.

Definition str_format (v : json) : string :=
  match v with
  | JStr s => s
  | other => py_str other
  end.

(** Whether [str.format] can encode the argument [v]: a unicode string has
    to be ASCII, and the [str] of anything else is a byte string. *)
Definition encodable (v : json) : bool :=
  match v with
  | JStr s => Str.is_ascii s
  | _ => true
  end.

(** Whether [str.format] can encode the three fields of a descriptor. *)
Definition fields_encodable (p : package) : bool :=
  Str.is_ascii (namespace p) && Str.is_ascii (name p) && encodable (version p).

Definition read_native_elm_package (package_file : string) : M json :=
  json_load package_file.

(** The URL of the archive of a package, as a string. *)
Definition package_url (p : package) : string :=
  "https://github.com/" +:+ namespace p +:+ "/" +:+ name p
    +:+ "/archive/" +:+ str_format (version p) +:+ ".tar.gz".

Definition format_url (p : package) : result string :=
  py_format (fields_encodable p) (package_url p).

Definition format_vendor_dir (base ns : string) : M string :=
  let* path := lift (os_path_join_mixed base ns) in
  let* _ := try_pass (os_makedirs path) in
  ret path.

Definition package_dir (vendor_dir : string) (p : package) : M string :=
  let* vendor := format_vendor_dir vendor_dir (namespace p) in
  lift (py_format (Str.is_ascii vendor && Str.is_ascii (name p)
                   && encodable (version p))
                  (vendor +:+ "/" +:+ name p +:+ "-" +:+ str_format (version p))).

Definition format_tar_file (vendor_dir : string) (p : package) : M string :=
  let* _ := format_vendor_dir vendor_dir (namespace p) in
  let* dir := package_dir vendor_dir p in
  ret (dir +:+ "-tar.gz").

(** The line printed before a package is downloaded, as a string. *)
Definition download_line (p : package) : string :=
  "Downloading " +:+ namespace p +:+ "/" +:+ name p
    +:+ " " +:+ str_format (version p).

(** One turn of the loop of [fetch_packages]: the archive file is opened
    for writing before the answer is read. *)
Definition fetch_package (vendor_dir : string) (p : package) : M unit :=
  let* tar_filename := format_tar_file vendor_dir p in
  let* vendor := format_vendor_dir vendor_dir (namespace p) in
  let* url := lift (format_url p) in
  let* line := lift (py_format (fields_encodable p) (download_line p)) in
  let* _ := print line in
  let* tar_file := urlopen url in
  let* _ := write_file tar_filename Blob in
  let* body := response_read url tar_file in
  let* _ := write_file tar_filename body in
  let* members := tarfile_members tar_filename in
  tarfile_extractall vendor members.

Definition fetch_packages (vendor_dir : string) (packages : list package)
  : M (list package) :=
  let* _ := for_each packages (fetch_package vendor_dir) in
  ret packages.

Definition get_source_dirs (vendor_dir : string) (p : package) : M json :=
  let* dir := package_dir vendor_dir p in
  let elm_package_filename := os_path_join dir "elm-package.json" in
  let* data := json_load elm_package_filename in
  lift (getitem data "source-directories").

(** The script handed to [sed]: the two native names are formatted, the
    package's first. *)
Definition sed_script (p : package) (ns nm : string) : result string :=
  rbind (format_native_name (namespace p) (name p)) (fun old =>
  rbind (format_native_name ns nm) (fun new =>
  Ok ("s/" +:+ old +:+ "/" +:+ new +:+ "/g"))).

(** The command started for a package directory and a script. *)
Definition find_command (dir script : string) : list string :=
  ["find"; dir; "-type"; "f"; "-exec"; "sed"; "-i"; ""; "-e"; script; "{}"; ";"].

Definition munge_names (vendor_dir : string) (repository : json)
                       (packages : list package) : M unit :=
  let* '(ns, nm) := lift (namespace_from_repo repository) in
  for_each packages (fun p =>
    let* dir := package_dir vendor_dir p in
    let* script := lift (sed_script p ns nm) in
    popen (find_command dir script)).

(** [os.path.join(path, dir, dir_name)]: [path] and [dir] are byte strings,
    and [dir_name], an entry of a JSON document, is a unicode string; a
    [dir_name] that is not a string has no [startswith]. *)
Definition join_relative (path dir : string) (dir_name : json) : result string :=
  match dir_name with
  | JStr d => os_path_join_mixed (os_path_join path dir) d
  | _ => Raise AttributeError
  end.

(** One turn of the innermost loop: the path is appended unless the
    config's list already has it. *)
Definition add_source_dir (vendor_dir path : string) (p : package)
                          (data dir_name : json) : M json :=
  let* dir := package_dir vendor_dir p in
  let* relative_path := lift (join_relative path dir dir_name) in
  let* listed := lift (getitem data "source-directories") in
  let* present := lift (py_contains listed relative_path) in
  if present then ret data
  else
    let* extended := lift (py_append listed relative_path) in
    ret (with_item data "source-directories" extended).

(** One turn of the loop over the packages. *)
Definition add_package (vendor_dir path : string) (data : json) (p : package)
  : M json :=
  let* current_package_dirs := get_source_dirs vendor_dir p in
  let* dir_names := lift (py_iter current_package_dirs) in
  fold_each dir_names (add_source_dir vendor_dir path p) data.

(** One turn of the loop over the configs; it returns the [repository]
    read from this config. *)
Definition update_config (vendor_dir : string) (packages : list package)
                         (config : string) : M json :=
  let* data := json_load config in
  let* repository := lift (getitem data "repository") in
  let* _ := lift (getitem data "source-directories") in
  let path := Str.times "../" (Str.count "/" config) in
  let* data' := fold_each packages (add_package vendor_dir path) data in
  let* _ := write_file config (Json (Some 4) data') in
  ret repository.

Definition update_elm_package (vendor_dir : string) (configs : list string)
                              (packages : list package) : M json :=
  fold_each configs (fun _ config => update_config vendor_dir packages config)
            (JStr "").

Fixpoint filter_packages (vendor_dir : string) (packages : list package)
  : M (list package) :=
  match packages with
  | [] => ret []
  | x :: rest =>
      let* tar := format_tar_file vendor_dir x in
      let* isdir := os_path_isdir tar in
      let* kept := filter_packages vendor_dir rest in
      ret (if negb isdir then x :: kept else kept)
  end.

Definition main (native_elm_package : string) (configs : list string)
                (vendor : string) : M unit :=
  let* raw_json := read_native_elm_package native_elm_package in
  let* parsed := lift (parse_json raw_json) in
  let* packages := filter_packages vendor parsed in
  let* _ := fetch_packages vendor packages in
  let* repository := update_elm_package vendor configs packages in
  munge_names vendor repository packages.

End Program.

(** ** Facts about strings and paths *)

Section StringFacts.

Implicit Types (a c : ascii) (s t : string).

Lemma eqb_ascii_eq a c : Str.eqb_ascii a c = true <-> a = c.
Proof. unfold Str.eqb_ascii. apply bool_decide_eq_true. Qed.

Lemma eqb_ascii_neq a c : Str.eqb_ascii a c = false <-> a <> c.
Proof. unfold Str.eqb_ascii. apply bool_decide_eq_false. Qed.

Lemma app_cons a s t : String a s +:+ t = String a (s +:+ t).
Proof. reflexivity. Qed.

Lemma app_empty_l s : "" +:+ s = s.
Proof. reflexivity. Qed.

Lemma app_assoc_s s t u : (s +:+ t) +:+ u = s +:+ t +:+ u.
Proof.
  induction s as [|a s IH]; [done |]. by rewrite !app_cons, IH.
Qed.


Lemma count_app c s t : Str.count c (s +:+ t) = Str.count c s + Str.count c t.
Proof.
  induction s as [|a s IH]; [done |]. rewrite app_cons. simpl. rewrite IH. lia.
Qed.

Lemma count_sep_app c s t :
  Str.count c (s +:+ String c t) = S (Str.count c s + Str.count c t).
Proof.
  rewrite count_app. simpl.
  assert (Str.eqb_ascii c c = true) as -> by by apply eqb_ascii_eq. lia.
Qed.

Lemma split_not_nil c s : Str.split c s <> [].
Proof.
  destruct s as [|a s]; simpl; [done |].
  destruct (Str.eqb_ascii a c); [done |]. by destruct (Str.split c s).
Qed.

Lemma split_length c s : length (Str.split c s) = S (Str.count c s).
Proof.
  induction s as [|a s IH]; simpl; [done |].
  destruct (Str.eqb_ascii a c); simpl; [by rewrite IH |].
  destruct (Str.split c s) eqn:E; simpl in *; [done | lia].
Qed.

(** A string with exactly one separator splits into the part before it and
    the part after it. *)
Lemma split_two c s ns nm :
  Str.split c s = [ns; nm] -> s = ns +:+ String c nm.
Proof.
  revert ns. induction s as [|a s IH]; intros ns; simpl; [done |].
  destruct (Str.eqb_ascii a c) eqn:Ea.
  - apply eqb_ascii_eq in Ea as ->. intros [= <- Hs].
    rewrite app_empty_l. f_equal.
    assert (Hn : Str.count c s = 0).
    { pose proof (split_length c s) as Hl. rewrite Hs in Hl. simpl in Hl. lia. }
    clear IH. revert nm Hs Hn. induction s as [|b s IH]; intros nm; simpl.
    + by intros [= <-].
    + destruct (Str.eqb_ascii b c); [intros _ ?; lia |].
      destruct (Str.split c s) as [|seg segs] eqn:E.
      * by destruct (split_not_nil c s).
      * intros [= <- ->] Hn. f_equal. by apply IH.
  - destruct (Str.split c s) as [|seg segs] eqn:E; [done |].
    intros [= <- ->]. rewrite app_cons. f_equal. by apply IH.
Qed.

Lemma split_no_sep c s : Str.count c s = 0 -> Str.split c s = [s].
Proof.
  induction s as [|a s IH]; simpl; [done |].
  destruct (Str.eqb_ascii a c); [lia |].
  intros Hn. by rewrite IH.
Qed.

Lemma split_app_sep c s t :
  Str.count c s = 0 -> Str.split c (s +:+ String c t) = s :: Str.split c t.
Proof.
  induction s as [|a s IH]; [rewrite app_empty_l | rewrite app_cons]; simpl.
  - intros _. assert (Str.eqb_ascii c c = true) as -> by by apply eqb_ascii_eq.
    done.
  - destruct (Str.eqb_ascii a c); [lia |].
    intros Hn. by rewrite IH.
Qed.

Lemma unpack2_one_sep key :
  Str.count "/" key = 1 ->
  exists ns nm, unpack2 (Str.split "/" key) = Ok (ns, nm)
                /\ key = ns +:+ "/" +:+ nm.
Proof.
  intros Hn. pose proof (split_length "/" key) as Hl. rewrite Hn in Hl.
  destruct (Str.split "/" key) as [|ns [|nm [|]]] eqn:E; simpl in Hl; try lia.
  exists ns, nm. split; [done |]. by apply split_two.
Qed.

Lemma unpack2_other key :
  Str.count "/" key <> 1 -> unpack2 (Str.split "/" key) = Raise ValueError.
Proof.
  intros Hn. pose proof (split_length "/" key) as Hl.
  destruct (Str.split "/" key) as [|ns [|nm [|]]] eqn:E; simpl in Hl;
    try done; lia.
Qed.


Lemma app_eq_empty s t : s +:+ t = "" -> s = "" /\ t = "".
Proof. by destruct s. Qed.

Lemma endswith_app c s t :
  t <> "" -> Str.endswith c (s +:+ t) = Str.endswith c t.
Proof.
  intros Ht. induction s as [|a s IH]; [done |].
  rewrite app_cons. simpl. rewrite IH.
  destruct (s +:+ t) eqn:E; [|done].
  by apply app_eq_empty in E as [_ ?].
Qed.


Lemma is_ascii_app s t :
  Str.is_ascii (s +:+ t) = Str.is_ascii s && Str.is_ascii t.
Proof.
  induction s as [|a s IH]; [done |]. rewrite app_cons. simpl.
  by rewrite IH, andb_assoc.
Qed.

Lemma is_ascii_replace a b s :
  Str.ascii7 a = true -> Str.ascii7 b = true ->
  Str.is_ascii (Str.replace a b s) = Str.is_ascii s.
Proof.
  intros Ha Hb. induction s as [|c s IH]; [done |]. simpl. rewrite IH.
  destruct (Str.eqb_ascii c a) eqn:E; [|done].
  apply eqb_ascii_eq in E as ->. by rewrite Ha, Hb.
Qed.

Lemma split_app c s t :
  Str.split c (s +:+ String c t) = Str.split c s ++ Str.split c t.
Proof.
  induction s as [|a s IH]; [rewrite app_empty_l | rewrite app_cons]; simpl.
  - by assert (Str.eqb_ascii c c = true) as -> by by apply eqb_ascii_eq.
  - rewrite IH. destruct (Str.eqb_ascii a c); [done |].
    destruct (Str.split c s) as [|seg segs] eqn:E; [|done].
    by destruct (split_not_nil c s).
Qed.

Lemma endswith_no_sep c s : Str.count c s = 0 -> Str.endswith c s = false.
Proof.
  induction s as [|a s IH]; [done |]. simpl.
  destruct (Str.eqb_ascii a c) eqn:E; [lia |]. intros Hs.
  destruct s; [done | by apply IH].
Qed.

Lemma plain_path_app s t :
  plain_path (s +:+ "/" +:+ t) = plain_path s && plain_path t.
Proof.
  unfold plain_path. rewrite app_cons, app_empty_l, split_app. apply forallb_app.
Qed.

Lemma plain_path_name s : Str.count "/" s = 0 -> plain_path s = plain_name s.
Proof.
  intros Hs. unfold plain_path. rewrite split_no_sep by done. simpl.
  apply andb_true_r.
Qed.

(** A name with a hyphen is not empty, [.] or [..]. *)
Lemma plain_name_hyphen s : 0 < Str.count "-" s -> plain_name s = true.
Proof.
  intros Hs. unfold plain_name.
  repeat case_bool_decide; subst; simpl in *; try lia; done.
Qed.


End StringFacts.

(** ** The manifest reader *)

Lemma parse_items_acc items acc :
  parse_items items acc
  = rbind (parse_items items []) (fun pkgs => Ok (acc ++ pkgs)).
Proof.
  revert acc. induction items as [|[key ver] items IH]; intros acc; simpl.
  - by rewrite app_nil_r.
  - destruct (unpack2 (Str.split "/" key)) as [[ns nm]|e]; simpl; [|done].
    rewrite IH, (IH [_]).
    destruct (parse_items items []); simpl; [|done]. by rewrite <- List.app_assoc.
Qed.

Lemma parse_items_cons key ver items :
  parse_items ((key, ver) :: items) []
  = rbind (unpack2 (Str.split "/" key)) (fun '(ns, nm) =>
    rbind (parse_items items []) (fun pkgs => Ok (Package ns nm ver :: pkgs))).
Proof.
  simpl. destruct (unpack2 (Str.split "/" key)) as [[ns nm]|e]; simpl; [|done].
  by rewrite parse_items_acc.
Qed.

Lemma parse_items_raises items e :
  parse_items items [] = Raise e -> e = ValueError.
Proof.
  induction items as [|[key ver] items IH]; [done |].
  rewrite parse_items_cons.
  destruct (Str.split "/" key) as [|a [|b [|]]]; simpl; try by intros [= <-].
  destruct (parse_items items []); simpl; [done |]. intros [= <-]. by apply IH.
Qed.

Definition key_of (p : package) : string := namespace p +:+ "/" +:+ name p.

Lemma parse_items_bad (fields : list (string * json)) :
  Exists (fun kv => Str.count "/" kv.1 <> 1) fields ->
  parse_items fields [] = Raise ValueError.
Proof.
  intros Hbad.
  destruct (parse_items fields []) as [pkgs|e] eqn:E.
  - exfalso. revert pkgs E.
    induction Hbad as [[key ver] rest Hk|[key ver] rest Hrest IH]; intros pkgs;
      rewrite parse_items_cons.
    + simpl in Hk. by rewrite (unpack2_other _ Hk).
    + destruct (unpack2 (Str.split "/" key)) as [[ns nm]|]; simpl; [|done].
      destruct (parse_items rest []) as [ps|] eqn:E'; [|done].
      intros _. by apply (IH ps).
  - by rewrite (parse_items_raises _ _ E).
Qed.

Lemma parse_items_good (fields : list (string * json)) :
  Forall (fun kv => Str.count "/" kv.1 = 1) fields ->
  exists pkgs, parse_items fields [] = Ok pkgs
    /\ Forall2 (fun kv p => kv.1 = key_of p /\ version p = kv.2) fields pkgs.
Proof.
  induction 1 as [|[key ver] rest Hk Hrest IH].
  - exists []. by split; [|constructor].
  - destruct IH as (pkgs & Hp & Hall). simpl in Hk.
    destruct (unpack2_one_sep _ Hk) as (ns & nm & Hu & Hkey).
    exists (Package ns nm ver :: pkgs). rewrite parse_items_cons, Hu. simpl.
    rewrite Hp. simpl. split; [done |]. by constructor.
Qed.

(** C6. A manifest in which some key has no [/], or more than one, makes
    [parse_json] raise (Python's [ValueError], from unpacking the split); a
    manifest whose keys all have exactly one [/] parses, each key giving the
    descriptor with the part before the [/] as namespace, the part after it
    as name, and the key's value as version. *)
Theorem parse_json_keys (fields : list (string * json)) :
  (Exists (fun kv => Str.count "/" kv.1 <> 1) fields ->
   parse_json (JObj fields) = Raise ValueError)
  /\ (Forall (fun kv => Str.count "/" kv.1 = 1) fields ->
      exists pkgs, parse_json (JObj fields) = Ok pkgs
        /\ Forall2 (fun kv p => kv.1 = key_of p /\ version p = kv.2) fields pkgs).
Proof.
  unfold parse_json; simpl. split; [apply parse_items_bad | apply parse_items_good].
Qed.

(** ** Running the path helpers *)

Section Paths.

Variable py_str : json -> string.

(** The string [package_dir] returns, without its effect. *)
Definition package_path (vendor_dir : string) (p : package) : string :=
  os_path_join vendor_dir (namespace p) +:+ "/" +:+ name p
    +:+ "-" +:+ str_format py_str (version p).

(** The world after the attempt to create a directory, whatever came of it. *)
Definition after_makedirs (path : string) (w : world) : world :=
  (os_makedirs path w).1.

Lemma after_makedirs_files path w : files (after_makedirs path w) = files w.
Proof.
  unfold after_makedirs, os_makedirs.
  repeat (case_match; simpl; try done).
Qed.

Lemma after_makedirs_dirs path w : dirs w ⊆ dirs (after_makedirs path w).
Proof.
  unfold after_makedirs, os_makedirs.
  repeat (case_match; simpl; try done). set_solver.
Qed.

(** What [format_vendor_dir] returns: the joined path, when the join can be
    made and the path is one of the model. *)
Definition vendor_path (base ns : string) : result string :=
  rbind (os_path_join_mixed base ns) (fun path =>
  if plain_path path then Ok path else Raise OutOfScope).

(** The world after [format_vendor_dir]. *)
Definition after_vendor (base ns : string) (w : world) : world :=
  match vendor_path base ns with
  | Ok path => after_makedirs path w
  | Raise _ => w
  end.

(** What [package_dir] returns. *)
Definition package_path_r (vendor_dir : string) (p : package) : result string :=
  rbind (vendor_path vendor_dir (namespace p)) (fun vendor =>
  py_format (Str.is_ascii vendor && Str.is_ascii (name p) && encodable (version p))
            (vendor +:+ "/" +:+ name p +:+ "-" +:+ str_format py_str (version p))).

(** A package that [package_dir] and the file system take without an
    error, under a vendor directory: all of its directory is ASCII, the
    namespace directory is a path of the model, and neither the namespace
    nor the name with the version has a [/]. *)
Definition tidy (vendor_dir : string) (p : package) : bool :=
  Str.is_ascii (package_path vendor_dir p)
  && plain_path (os_path_join vendor_dir (namespace p))
  && bool_decide (Str.count "/" (namespace p) = 0)
  && bool_decide (Str.count "/" (name p +:+ "-" +:+ str_format py_str (version p)) = 0).

Lemma os_path_join_plain base ns :
  base <> "" -> Str.endswith "/" base = false -> Str.startswith "/" ns = false ->
  os_path_join base ns = base +:+ "/" +:+ ns.
Proof.
  intros Hb He Hs. unfold os_path_join. rewrite Hs, He.
  by rewrite bool_decide_eq_false_2.
Qed.

Lemma startswith_no_sep ns :
  Str.count "/" ns = 0 -> Str.startswith "/" ns = false.
Proof.
  destruct ns as [|a ns]; [done |]. simpl.
  destruct (Str.eqb_ascii a "/"); [lia | done].
Qed.

Lemma try_makedirs_run path w :
  plain_path path = true ->
  try_pass (os_makedirs path) w = (after_makedirs path w, Ok tt).
Proof.
  intros Hp. unfold try_pass, after_makedirs, os_makedirs. rewrite Hp. simpl.
  repeat (case_match; simplify_eq; try done).
Qed.

Lemma format_vendor_dir_run base ns w :
  format_vendor_dir base ns w = (after_vendor base ns w, vendor_path base ns).
Proof.
  unfold format_vendor_dir, after_vendor, vendor_path, bind at 1, lift.
  destruct (os_path_join_mixed base ns) as [path|e]; simpl; [|done].
  destruct (plain_path path) eqn:Hp.
  - unfold bind. by rewrite try_makedirs_run.
  - unfold bind, try_pass, os_makedirs. by rewrite Hp.
Qed.

Lemma package_dir_run vendor_dir p w :
  package_dir py_str vendor_dir p w
  = (after_vendor vendor_dir (namespace p) w, package_path_r vendor_dir p).
Proof.
  unfold package_dir, bind. rewrite format_vendor_dir_run. unfold package_path_r.
  by destruct (vendor_path vendor_dir (namespace p)).
Qed.

Lemma after_vendor_idem base ns w :
  vendor_path base ns = Ok (os_path_join base ns) \/
  after_vendor base ns w = w.
Proof.
  unfold after_vendor, vendor_path, os_path_join_mixed.
  destruct (_ || _); simpl; [|by right].
  destruct (plain_path _); [by left | by right].
Qed.

Lemma format_tar_file_run vendor_dir p w :
  format_tar_file py_str vendor_dir p w
  = (after_vendor vendor_dir (namespace p) (after_vendor vendor_dir (namespace p) w),
     rbind (package_path_r vendor_dir p) (fun dir => Ok (dir +:+ "-tar.gz"))).
Proof.
  unfold format_tar_file, bind at 1. rewrite format_vendor_dir_run.
  unfold bind. rewrite package_dir_run. unfold package_path_r.
  destruct (vendor_path vendor_dir (namespace p)) as [vendor|e] eqn:E; simpl.
  - by destruct (py_format _ _).
  - unfold after_vendor. by rewrite E.
Qed.

Lemma after_vendor_files base ns w : files (after_vendor base ns w) = files w.
Proof.
  unfold after_vendor. destruct (vendor_path base ns); [|done].
  apply after_makedirs_files.
Qed.

Lemma after_vendor_dirs base ns w : dirs w ⊆ dirs (after_vendor base ns w).
Proof.
  unfold after_vendor. destruct (vendor_path base ns); [|done].
  apply after_makedirs_dirs.
Qed.

Lemma vendor_path_ok base ns path :
  vendor_path base ns = Ok path ->
  path = os_path_join base ns /\ plain_path path = true.
Proof.
  unfold vendor_path, os_path_join_mixed.
  destruct (_ || _); simpl; [|done].
  destruct (plain_path _) eqn:Hp; [|done]. by intros [= <-].
Qed.

Lemma package_path_r_ok vendor_dir p dir :
  package_path_r vendor_dir p = Ok dir ->
  dir = package_path vendor_dir p
  /\ vendor_path vendor_dir (namespace p) = Ok (os_path_join vendor_dir (namespace p))
  /\ plain_path (os_path_join vendor_dir (namespace p)) = true.
Proof.
  unfold package_path_r.
  destruct (vendor_path vendor_dir (namespace p)) as [vendor|] eqn:E; simpl; [|done].
  pose proof E as E'. apply vendor_path_ok in E' as [-> Hp]. unfold py_format.
  destruct (_ && _); [|done]. by intros [= <-].
Qed.

Lemma tidy_vendor_path vendor_dir p :
  tidy vendor_dir p = true ->
  vendor_path vendor_dir (namespace p) = Ok (os_path_join vendor_dir (namespace p)).
Proof.
  unfold tidy. intros [[[Ha Hp]%andb_true_iff Hns]%andb_true_iff _]%andb_true_iff.
  apply bool_decide_eq_true in Hns.
  unfold vendor_path, os_path_join_mixed.
  assert (Str.is_ascii vendor_dir = true) as ->.
  { unfold package_path in Ha. rewrite is_ascii_app in Ha.
    apply andb_true_iff in Ha as [Ha _]. unfold os_path_join in Ha.
    rewrite (startswith_no_sep _ Hns) in Ha.
    destruct (_ || _); rewrite !is_ascii_app in Ha; by apply andb_true_iff in Ha as [? _]. }
  rewrite orb_true_r. simpl. by rewrite Hp.
Qed.

Lemma tidy_package_path vendor_dir p :
  tidy vendor_dir p = true ->
  package_path_r vendor_dir p = Ok (package_path vendor_dir p).
Proof.
  intros Ht. unfold package_path_r. rewrite (tidy_vendor_path _ _ Ht). simpl.
  unfold tidy in Ht.
  apply andb_true_iff in Ht as [[[Ha _]%andb_true_iff _]%andb_true_iff _].
  unfold package_path in Ha. rewrite !is_ascii_app in Ha.
  apply andb_true_iff in Ha as [Hv [_ [Hn [_ Hver]%andb_true_iff]%andb_true_iff]%andb_true_iff].
  rewrite Hv, Hn. simpl.
  assert (encodable (version p) = true) as ->; [|done].
  by destruct (version p).
Qed.

Lemma tidy_after_vendor vendor_dir p w :
  tidy vendor_dir p = true ->
  after_vendor vendor_dir (namespace p) w
  = after_makedirs (os_path_join vendor_dir (namespace p)) w.
Proof. intros Ht. unfold after_vendor. by rewrite (tidy_vendor_path _ _ Ht). Qed.

Lemma tidy_leaf vendor_dir p :
  tidy vendor_dir p = true ->
  let leaf := name p +:+ "-" +:+ str_format py_str (version p) in
  Str.count "/" leaf = 0 /\ 0 < Str.count "-" leaf
  /\ plain_path (os_path_join vendor_dir (namespace p)) = true.
Proof.
  unfold tidy. intros [[[_ Hp]%andb_true_iff _]%andb_true_iff Hl]%andb_true_iff.
  apply bool_decide_eq_true in Hl. simpl. split; [done |]. split; [|done].
  rewrite app_cons, app_empty_l, count_sep_app. lia.
Qed.

Lemma tidy_plain_package vendor_dir p :
  tidy vendor_dir p = true -> plain_path (package_path vendor_dir p) = true.
Proof.
  intros (Hl & Hd & Hp)%tidy_leaf. unfold package_path.
  rewrite plain_path_app, Hp. simpl.
  rewrite plain_path_name by done. by apply plain_name_hyphen.
Qed.

Lemma tidy_plain_marker vendor_dir p :
  tidy vendor_dir p = true ->
  plain_path (package_path vendor_dir p +:+ "-tar.gz") = true.
Proof.
  intros (Hl & Hd & Hp)%tidy_leaf. simpl in Hl, Hd.
  set (leaf := name p +:+ "-" +:+ str_format py_str (version p)) in *.
  assert (E : package_path vendor_dir p +:+ "-tar.gz"
              = os_path_join vendor_dir (namespace p) +:+ "/"
                  +:+ (leaf +:+ "-tar.gz")).
  { unfold package_path, leaf. by rewrite !app_assoc_s. }
  rewrite E, plain_path_app, Hp. simpl.
  rewrite plain_path_name by (rewrite count_app, Hl; reflexivity).
  apply plain_name_hyphen. rewrite count_app. lia.
Qed.

Lemma tidy_metadata vendor_dir p :
  tidy vendor_dir p = true ->
  os_path_join (package_path vendor_dir p) "elm-package.json"
  = package_path vendor_dir p +:+ "/" +:+ "elm-package.json"
  /\ plain_path (os_path_join (package_path vendor_dir p) "elm-package.json") = true.
Proof.
  intros Ht. pose proof (tidy_plain_package _ _ Ht) as Hpp.
  destruct (tidy_leaf _ _ Ht) as (Hl & Hd & Hp).
  assert (Hj : os_path_join (package_path vendor_dir p) "elm-package.json"
               = package_path vendor_dir p +:+ "/" +:+ "elm-package.json").
  { apply os_path_join_plain; [| |done].
    - intros E. by rewrite E in Hpp.
    - unfold package_path. simpl in Hl, Hd.
      set (leaf := name p +:+ "-" +:+ str_format py_str (version p)) in *.
      rewrite <- (app_assoc_s _ "/" leaf). rewrite endswith_app.
      + by apply endswith_no_sep.
      + intros E. rewrite E in Hd. simpl in Hd. lia. }
  split; [done |]. rewrite Hj, plain_path_app, Hpp. reflexivity.
Qed.

End Paths.




(** ** What the config updater computes

    The loops of [update_elm_package] touch the world in two ways only: they
    read the packages' metadata and they try to create directories. The
    value they build is described here without the world, from the source
    directories [declared] by each package, and related to the program
    below. *)

Fixpoint rfold {A S} (f : S -> A -> result S) (xs : list A) (s : S) : result S :=
  match xs with
  | [] => Ok s
  | x :: rest => rbind (f s x) (rfold f rest)
  end.

Definition append_missing (data : json) (reference : string) : result json :=
  rbind (getitem data "source-directories") (fun listed =>
  rbind (py_contains listed reference) (fun present =>
  if (present : bool) then Ok data
  else rbind (py_append listed reference) (fun extended =>
       Ok (with_item data "source-directories" extended)))).

Definition append_reference (path dir : string) (data dir_name : json)
  : result json :=
  rbind (join_relative path dir dir_name) (append_missing data).

Section Merge.

Variable py_str : json -> string.
Variable declared : package -> result json.
Variables vendor_dir path : string.

Definition merge_package (data : json) (p : package) : result json :=
  rbind (package_path_r py_str vendor_dir p) (fun dir =>
  rbind (declared p) (fun current_package_dirs =>
  rbind (py_iter current_package_dirs) (fun dir_names =>
  rfold (append_reference path dir) dir_names data))).

Definition merge_packages (packages : list package) (data : json) : result json :=
  rfold merge_package packages data.

End Merge.

(** What [json.load(open(path))] gives in a world. *)
Definition load_result (w : world) (path : string) : result json :=
  if negb (plain_path path) then Raise OutOfScope
  else if bool_decide (path ∈ dirs w) then Raise (IOError EISDIR)
  else match files w !! path with
       | Some (Json _ doc) => Ok doc
       | Some _ => Raise ValueError
       | None => Raise (IOError ENOENT)
       end.

(** [w'] is [w] with more directories, none of them where [w] has a file. *)
Definition more_dirs (w w' : world) : Prop :=
  files w' = files w
  /\ dirs w ⊆ dirs w'
  /\ (forall q, q ∈ dirs w' -> q ∉ dirs w -> files w !! q = None).

Section Simulation.

Variable py_str : json -> string.

Definition metadata_path (vendor_dir : string) (p : package) : string :=
  os_path_join (package_path py_str vendor_dir p) "elm-package.json".

(** The source directories a package declares, as a world lets read them. *)
Definition declared_in (w : world) (vendor_dir : string) (p : package)
  : result json :=
  rbind (load_result w (metadata_path vendor_dir p)) (fun data =>
  getitem data "source-directories").

Lemma more_dirs_refl w : more_dirs w w.
Proof. by repeat split. Qed.

Lemma more_dirs_trans w1 w2 w3 :
  more_dirs w1 w2 -> more_dirs w2 w3 -> more_dirs w1 w3.
Proof.
  intros (Hf1 & Hd1 & Hn1) (Hf2 & Hd2 & Hn2).
  split; [congruence |]. split; [set_solver |].
  intros q Hq3 Hq1. destruct (decide (q ∈ dirs w2)) as [Hq2|Hq2]; [by apply Hn1 |].
  rewrite <- Hf1. by apply Hn2.
Qed.

Lemma is_file_false w q : is_file w q = false -> files w !! q = None.
Proof.
  unfold is_file. intros H%bool_decide_eq_false.
  destruct (files w !! q) eqn:E; [|done]. by destruct H.
Qed.

Lemma more_dirs_makedirs path w : more_dirs w (after_makedirs path w).
Proof.
  split; [apply after_makedirs_files |]. split; [apply after_makedirs_dirs |].
  unfold after_makedirs, os_makedirs.
  destruct (plain_path path); simpl; [|done].
  destruct (mkdir_fault w path); simpl; [done |].
  destruct (bool_decide (path ∈ dirs w) || is_file w path) eqn:E1; simpl; [done |].
  destruct (existsb (is_file w) (ancestors path)) eqn:E2; simpl; [done |].
  apply orb_false_iff in E1 as [_ Hfile].
  intros q Hq Hnq.
  apply elem_of_union in Hq as [Hq|Hq%elem_of_singleton].
  - apply elem_of_union in Hq as [Hq|Hq%elem_of_list_to_set]; [done |].
    apply is_file_false. destruct (is_file w q) eqn:E; [|done].
    assert (existsb (is_file w) (ancestors path) = true); [|congruence].
    apply existsb_exists. exists q. split; [by apply list_elem_of_In | done].
  - subst q. by apply is_file_false.
Qed.

Lemma more_dirs_vendor base ns w : more_dirs w (after_vendor base ns w).
Proof.
  unfold after_vendor. destruct (vendor_path base ns); [|apply more_dirs_refl].
  apply more_dirs_makedirs.
Qed.

Lemma load_result_more_dirs w w' q doc :
  more_dirs w w' -> (load_result w' q = Ok doc <-> load_result w q = Ok doc).
Proof.
  intros (Hf & Hd & Hn). unfold load_result. rewrite Hf.
  destruct (plain_path q); simpl; [|done].
  destruct (decide (q ∈ dirs w)) as [Hq|Hq].
  - rewrite !bool_decide_eq_true_2 by set_solver. done.
  - rewrite (bool_decide_eq_false_2 (q ∈ dirs w)) by done.
    destruct (decide (q ∈ dirs w')) as [Hq'|Hq'].
    + rewrite bool_decide_eq_true_2 by done. by rewrite (Hn q Hq' Hq).
    + by rewrite bool_decide_eq_false_2 by done.
Qed.

Lemma declared_in_more_dirs w w' vendor_dir p listed :
  more_dirs w w' ->
  (declared_in w' vendor_dir p = Ok listed <-> declared_in w vendor_dir p = Ok listed).
Proof.
  intros Hm. unfold declared_in.
  destruct (load_result w' _) as [d'|] eqn:E'; destruct (load_result w _) as [d|] eqn:E;
    simpl; try done.
  - apply (load_result_more_dirs _ _ _ _ Hm) in E'. by replace d' with d by congruence.
  - apply (load_result_more_dirs _ _ _ _ Hm) in E'. congruence.
  - apply (load_result_more_dirs _ _ _ _ Hm) in E. congruence.
Qed.

Lemma json_load_run path w : json_load path w = (w, load_result w path).
Proof.
  unfold json_load, load_result, bind, read_file, ret, raise.
  destruct (plain_path path); simpl; [|done].
  destruct (bool_decide (path ∈ dirs w)); [done |].
  destruct (files w !! path) as [[]|]; done.
Qed.

Lemma get_source_dirs_run vendor_dir p w :
  let w' := after_vendor vendor_dir (namespace p) w in
  get_source_dirs py_str vendor_dir p w
  = (w', rbind (package_path_r py_str vendor_dir p) (fun _ =>
         declared_in w' vendor_dir p)).
Proof.
  simpl. unfold get_source_dirs, bind. rewrite package_dir_run.
  destruct (package_path_r py_str vendor_dir p) as [dir|] eqn:E; simpl; [|done].
  apply package_path_r_ok in E as (-> & _). rewrite json_load_run.
  unfold declared_in, metadata_path, lift.
  by destruct (load_result _ _).
Qed.

Lemma add_source_dir_run vendor_dir path p data dir_name w :
  add_source_dir py_str vendor_dir path p data dir_name w
  = (after_vendor vendor_dir (namespace p) w,
     rbind (package_path_r py_str vendor_dir p) (fun dir =>
     append_reference path dir data dir_name)).
Proof.
  unfold add_source_dir, bind. rewrite package_dir_run.
  destruct (package_path_r py_str vendor_dir p) as [dir|]; simpl; [|done].
  unfold append_reference, append_missing, lift, ret.
  destruct (join_relative _ _ _) as [reference|]; simpl; [|done].
  destruct (getitem data _) as [listed|]; simpl; [|done].
  destruct (py_contains listed reference) as [[]|]; simpl; try done.
  by destruct (py_append listed reference).
Qed.

Lemma add_source_dirs_run vendor_dir path p dir dir_names data w :
  package_path_r py_str vendor_dir p = Ok dir ->
  exists w', more_dirs w w'
    /\ fold_each dir_names (add_source_dir py_str vendor_dir path p) data w
       = (w', rfold (append_reference path dir) dir_names data).
Proof.
  intros Hdir.
  revert data w. induction dir_names as [|d rest IH]; intros data w; simpl.
  - exists w. split; [apply more_dirs_refl | done].
  - unfold bind. rewrite add_source_dir_run, Hdir. simpl.
    destruct (append_reference _ _ _ _) as [data'|e]; simpl.
    + destruct (IH data' (after_vendor vendor_dir (namespace p) w))
        as (w' & Hm & Hrun).
      exists w'. split; [|done].
      eapply more_dirs_trans; [apply more_dirs_vendor | done].
    + eexists. split; [apply more_dirs_vendor | done].
Qed.

(** One package: the program reads the metadata in the world it has reached,
    which lets read what [w0] let read. *)
Lemma add_package_run w0 vendor_dir path data p w :
  more_dirs w0 w ->
  exists w' r, add_package py_str vendor_dir path data p w = (w', r)
    /\ more_dirs w0 w'
    /\ (forall data', r = Ok data' <->
          merge_package py_str (declared_in w0 vendor_dir) vendor_dir path data p
          = Ok data').
Proof.
  intros Hm. unfold add_package, bind. rewrite get_source_dirs_run. simpl.
  set (w1 := after_vendor _ _ w).
  assert (Hm1 : more_dirs w0 w1).
  { eapply more_dirs_trans; [done | apply more_dirs_vendor]. }
  unfold merge_package.
  destruct (package_path_r py_str vendor_dir p) as [dir|e] eqn:Hdir; simpl.
  2:{ exists w1, (Raise e). split; [done |]. split; [done |]. by intros data'. }
  destruct (declared_in w1 vendor_dir p) as [listed|e] eqn:E.
  - apply (declared_in_more_dirs _ _ _ _ _ Hm1) in E. rewrite E. simpl.
    destruct (py_iter listed) as [names|e]; simpl.
    + destruct (add_source_dirs_run vendor_dir path p dir names data w1 Hdir)
        as (w' & Hm' & ->).
      exists w', (rfold (append_reference path dir) names data).
      split; [done |]. split; [by eapply more_dirs_trans |]. done.
    + exists w1, (Raise e). split; [done |]. split; [done |]. by intros data'.
  - exists w1, (Raise e). split; [done |]. split; [done |].
    intros data'. split; [done |].
    destruct (declared_in w0 vendor_dir p) as [listed|] eqn:E0; [|done].
    apply (declared_in_more_dirs _ _ _ _ _ Hm1) in E0. congruence.
Qed.

Lemma add_packages_run w0 vendor_dir path packages data w :
  more_dirs w0 w ->
  exists w' r,
    fold_each packages (add_package py_str vendor_dir path) data w = (w', r)
    /\ more_dirs w0 w'
    /\ (forall data', r = Ok data' <->
          merge_packages py_str (declared_in w0 vendor_dir) vendor_dir path
                         packages data = Ok data').
Proof.
  revert data w. induction packages as [|p rest IH]; intros data w Hm; simpl.
  - exists w, (Ok data). split; [done |]. split; [done |]. by intros data'.
  - unfold bind.
    destruct (add_package_run w0 vendor_dir path data p w Hm)
      as (w1 & r1 & -> & Hm1 & Hr1).
    destruct r1 as [data1|e].
    + destruct (IH data1 w1 Hm1) as (w' & r & Hrun & Hm' & Hr).
      exists w', r. split; [done |]. split; [done |].
      intros data'. unfold merge_packages. simpl.
      rewrite (proj1 (Hr1 data1) eq_refl). simpl. apply Hr.
    + exists w1, (Raise e). split; [done |]. split; [done |].
      intros data'. split; [done |]. unfold merge_packages. simpl.
      destruct (merge_package _ _ _ _ data p) as [d|] eqn:E; [|done].
      by pose proof (proj2 (Hr1 d) eq_refl).
Qed.

End Simulation.

(** ** Properties of the merge *)

(** The list stored under [source-directories] is unchanged, or it is a JSON
    array that got entries at its end. *)
Definition grows (listed listed' : json) : Prop :=
  listed' = listed
  \/ exists items extra, listed = JArr items /\ listed' = JArr (items ++ extra).

(** Two objects with the same keys in the same order, the same value under
    every key but [source-directories], whose list [grows]. *)
Definition fields_frame (fields fields' : list (string * json)) : Prop :=
  Forall2 (fun kv kv' =>
             kv'.1 = kv.1
             /\ if bool_decide (kv.1 = "source-directories")
                then grows kv.2 kv'.2 else kv'.2 = kv.2)
          fields fields'.

Definition doc_frame (data data' : json) : Prop :=
  data' = data
  \/ exists fields fields',
       data = JObj fields /\ data' = JObj fields' /\ fields_frame fields fields'.

(** The config's list has the reference. *)
Definition listed_has (data : json) (reference : string) : Prop :=
  exists listed, getitem data "source-directories" = Ok listed
                 /\ py_contains listed reference = Ok true.

Definition keeps (data data' : json) : Prop :=
  forall reference, listed_has data reference -> listed_has data' reference.

(** The config's list is a JSON array without a repeated entry. *)
Definition listed_nodup (data : json) : Prop :=
  exists items, getitem data "source-directories" = Ok (JArr items) /\ NoDup items.

Lemma rfold_invariant {A S} (P : S -> Prop) (f : S -> A -> result S) xs s s' :
  (forall s x s', P s -> f s x = Ok s' -> P s') ->
  P s -> rfold f xs s = Ok s' -> P s'.
Proof.
  intros Hstep. revert s. induction xs as [|x rest IH]; intros s Hs; simpl.
  - by intros [= <-].
  - destruct (f s x) as [s1|] eqn:E; simpl; [|done]. apply IH. by eapply Hstep.
Qed.

Section MergeFacts.

Lemma grows_refl listed : grows listed listed.
Proof. by left. Qed.

Lemma grows_trans a b c : grows a b -> grows b c -> grows a c.
Proof.
  intros [->|(items & extra & -> & ->)]; [done |].
  intros [->|(items' & extra' & [= <-] & ->)].
  - right. by exists items, extra.
  - right. exists items, (extra ++ extra')%list. by rewrite List.app_assoc.
Qed.

Lemma fields_frame_refl fields : fields_frame fields fields.
Proof.
  induction fields as [|kv rest IH]; constructor; [|done].
  split; [done |]. case_bool_decide; [apply grows_refl | done].
Qed.

Lemma fields_frame_trans f1 f2 f3 :
  fields_frame f1 f2 -> fields_frame f2 f3 -> fields_frame f1 f3.
Proof.
  intros H12. revert f3. induction H12 as [|kv1 kv2 r1 r2 [Hk Hv] _ IH];
    intros f3 H23; inversion H23 as [|? kv3 ? r3 [Hk' Hv'] Hr]; subst;
    constructor; [|by apply IH].
  split; [congruence |]. rewrite Hk in Hv'.
  case_bool_decide; [by eapply grows_trans | congruence].
Qed.

Lemma doc_frame_refl data : doc_frame data data.
Proof. by left. Qed.

Lemma doc_frame_trans a b c : doc_frame a b -> doc_frame b c -> doc_frame a c.
Proof.
  intros [->|(f1 & f2 & -> & -> & H12)]; [done |].
  intros [->|(f2' & f3 & [= <-] & -> & H23)].
  - right. by exists f1, f2.
  - right. exists f1, f3. repeat split; by eapply fields_frame_trans.
Qed.

Lemma assoc_set_frame key fields old v :
  key = "source-directories" -> assoc key fields = Some old -> grows old v ->
  fields_frame fields (assoc_set key v fields).
Proof.
  intros -> Hold Hg. induction fields as [|[k x] rest IH]; [done |].
  simpl in *. case_bool_decide as Hk.
  - injection Hold as ->. constructor; [|apply fields_frame_refl].
    simpl. split; [done |]. by rewrite bool_decide_eq_true_2.
  - constructor; [|by apply IH].
    simpl. split; [done |]. by rewrite bool_decide_eq_false_2.
Qed.

Lemma assoc_set_same key v fields old :
  assoc key fields = Some old -> assoc key (assoc_set key v fields) = Some v.
Proof.
  induction fields as [|[k x] rest IH]; [done |]. simpl.
  case_bool_decide as Hk; simpl.
  - intros _. by rewrite bool_decide_eq_true_2.
  - intros Hold. rewrite bool_decide_eq_false_2 by done. by apply IH.
Qed.

Lemma assoc_frame key fields fields' :
  key <> "source-directories" -> fields_frame fields fields' ->
  assoc key fields' = assoc key fields.
Proof.
  intros Hkey. induction 1 as [|[k x] [k' x'] r r' [Hk Hv] _ IH]; [done |].
  simpl in *. subst k'. destruct (decide (k = key)) as [->|Hne].
  - rewrite !bool_decide_eq_true_2 by done.
    rewrite bool_decide_eq_false_2 in Hv by done. by rewrite Hv.
  - by rewrite !bool_decide_eq_false_2 by done.
Qed.

Lemma assoc_frame_some key fields fields' :
  fields_frame fields fields' ->
  is_Some (assoc key fields) -> is_Some (assoc key fields').
Proof.
  induction 1 as [|[k x] [k' x'] r r' [Hk Hv] _ IH]; [done |].
  simpl in *. subst k'. destruct (bool_decide (k = key)); [done | apply IH].
Qed.

Lemma getitem_frame key data data' :
  key <> "source-directories" -> doc_frame data data' ->
  getitem data' key = getitem data key.
Proof.
  intros Hkey [->|(f & f' & -> & -> & Hf)]; [done |].
  simpl. by rewrite (assoc_frame _ _ _ Hkey Hf).
Qed.

Lemma getitem_frame_ok key data data' v :
  doc_frame data data' -> getitem data key = Ok v ->
  exists v', getitem data' key = Ok v'.
Proof.
  intros [->|(f & f' & -> & -> & Hf)]; [by exists v |]. simpl.
  destruct (assoc key f) as [x|] eqn:E; [|done]. intros _.
  destruct (assoc_frame_some key _ _ Hf) as [x' Hx']; [by rewrite E |].
  rewrite Hx'. by exists x'.
Qed.

Lemma py_append_contains listed reference extended :
  py_append listed reference = Ok extended ->
  py_contains extended reference = Ok true
  /\ grows listed extended
  /\ forall x, py_contains listed x = Ok true -> py_contains extended x = Ok true.
Proof.
  destruct listed; try done. intros [= <-]. simpl. repeat split.
  - f_equal. rewrite existsb_app. simpl. rewrite bool_decide_eq_true_2 by done.
    by rewrite orb_true_r.
  - right. by eexists _, _.
  - intros x [= Hx]. f_equal. rewrite existsb_app, Hx. done.
Qed.

Lemma append_missing_ok data reference data' :
  append_missing data reference = Ok data' ->
  listed_has data' reference /\ keeps data data' /\ doc_frame data data'.
Proof.
  unfold append_missing.
  destruct (getitem data _) as [listed|] eqn:Hl; simpl; [|done].
  destruct (py_contains listed reference) as [[]|] eqn:Hc; simpl; [| |done].
  - intros [= <-]. split; [by exists listed |].
    split; [by intros x Hx | apply doc_frame_refl].
  - destruct (py_append listed reference) as [extended|] eqn:Ha; simpl; [|done].
    intros [= <-].
    destruct (py_append_contains _ _ _ Ha) as (Hin & Hg & Hkeep).
    destruct data as [| | | | |fields]; try done. simpl in Hl.
    destruct (assoc _ fields) as [old|] eqn:Hold; [|done]. injection Hl as ->.
    assert (Hget : getitem (with_item (JObj fields) "source-directories" extended)
                           "source-directories" = Ok extended).
    { simpl. by rewrite (assoc_set_same _ _ _ _ Hold). }
    split; [by exists extended |]. split.
    + intros x (l & Hx & Hxin). simpl in Hx. rewrite Hold in Hx.
      injection Hx as <-. exists extended. split; [done | by apply Hkeep].
    + right. exists fields, (assoc_set "source-directories" extended fields).
      repeat split. by eapply assoc_set_frame.
Qed.

Lemma append_missing_fix data reference :
  listed_has data reference -> append_missing data reference = Ok data.
Proof.
  intros (listed & Hl & Hc). unfold append_missing. by rewrite Hl; simpl; rewrite Hc.
Qed.

Lemma keeps_trans a b c : keeps a b -> keeps b c -> keeps a c.
Proof. unfold keeps. auto. Qed.

Lemma is_str_absent reference items :
  existsb (is_str reference) items = false -> JStr reference ∉ items.
Proof.
  intros Hex Hin. apply list_elem_of_In in Hin.
  assert (existsb (is_str reference) items = true); [|congruence].
  apply existsb_exists. exists (JStr reference). split; [done |].
  simpl. by apply bool_decide_eq_true_2.
Qed.

Lemma append_missing_nodup data reference data' :
  listed_nodup data -> append_missing data reference = Ok data' ->
  listed_nodup data'.
Proof.
  intros (items & Hl & Hnd). unfold append_missing. rewrite Hl. simpl.
  destruct (existsb (is_str reference) items) eqn:Hex; simpl.
  - intros [= <-]. by exists items.
  - intros [= <-]. exists (items ++ [JStr reference]). split.
    + destruct data as [| | | | |fields]; try done. simpl in *.
      destruct (assoc _ fields) eqn:E; [|done].
      by rewrite (assoc_set_same _ _ _ _ E).
    + apply NoDup_app. split; [done |]. split; [|apply NoDup_singleton].
      intros x Hx ->%list_elem_of_singleton. by apply (is_str_absent _ _ Hex).
Qed.

End MergeFacts.

Section MergeLoops.

Variable py_str : json -> string.
Variable declared : package -> result json.
Variables vendor_dir path : string.

(** Every sub-directory in [dir_names] has its reference in the list. *)
Definition references_listed (dir : string) (data : json) (dir_names : list json)
  : Prop :=
  Forall (fun dir_name =>
            exists reference, join_relative path dir dir_name = Ok reference
                              /\ listed_has data reference)
         dir_names.

(** The list has a reference for every sub-directory the package declares. *)
Definition package_settled (data : json) (p : package) : Prop :=
  exists listed dir_names,
    package_path_r py_str vendor_dir p = Ok (package_path py_str vendor_dir p)
    /\ declared p = Ok listed /\ py_iter listed = Ok dir_names
    /\ references_listed (package_path py_str vendor_dir p) data dir_names.

Definition settled (packages : list package) (data : json) : Prop :=
  Forall (package_settled data) packages.

Lemma references_listed_keeps dir data data' dir_names :
  keeps data data' -> references_listed dir data dir_names ->
  references_listed dir data' dir_names.
Proof.
  intros Hk Hall. unfold references_listed. eapply Forall_impl; [exact Hall |].
  intros d (reference & Hj & Hl). exists reference. split; [done | by apply Hk].
Qed.

Lemma append_references_ok dir dir_names data data' :
  rfold (append_reference path dir) dir_names data = Ok data' ->
  references_listed dir data' dir_names /\ keeps data data' /\ doc_frame data data'.
Proof.
  revert data. induction dir_names as [|d rest IH]; intros data; simpl.
  - intros [= <-]. split; [constructor |]. split; [by intros x Hx | by left].
  - destruct (append_reference path dir data d) as [data1|] eqn:E; simpl; [|done].
    intros Hrest. destruct (IH _ Hrest) as (Hall & Hk & Hf).
    unfold append_reference in E.
    destruct (join_relative path dir d) as [reference|] eqn:Hj; simpl in E; [|done].
    destruct (append_missing_ok _ _ _ E) as (Hin & Hk1 & Hf1).
    split; [|split].
    + constructor; [|done]. exists reference. split; [done | by apply Hk].
    + by eapply keeps_trans.
    + by eapply doc_frame_trans.
Qed.

Lemma append_references_fix dir dir_names data :
  references_listed dir data dir_names ->
  rfold (append_reference path dir) dir_names data = Ok data.
Proof.
  induction 1 as [|d rest (reference & Hj & Hl) _ IH]; [done |].
  simpl. unfold append_reference at 1. rewrite Hj. simpl.
  by rewrite (append_missing_fix _ _ Hl).
Qed.

Lemma package_settled_keeps data data' p :
  keeps data data' -> package_settled data p -> package_settled data' p.
Proof.
  intros Hk (listed & names & Hdir & Hd & Hi & Hall).
  exists listed, names. repeat split; try done.
  by eapply references_listed_keeps.
Qed.

Lemma merge_package_ok data p data' :
  merge_package py_str declared vendor_dir path data p = Ok data' ->
  package_settled data' p /\ keeps data data' /\ doc_frame data data'.
Proof.
  unfold merge_package.
  destruct (package_path_r py_str vendor_dir p) as [dir|] eqn:Hdir; simpl; [|done].
  pose proof Hdir as Hdir'. apply package_path_r_ok in Hdir' as (-> & _).
  destruct (declared p) as [listed|] eqn:Hd; simpl; [|done].
  destruct (py_iter listed) as [names|] eqn:Hi; simpl; [|done].
  intros (Hall & Hk & Hf)%append_references_ok.
  split; [|done]. by exists listed, names.
Qed.

Lemma merge_packages_ok packages data data' :
  merge_packages py_str declared vendor_dir path packages data = Ok data' ->
  settled packages data' /\ keeps data data' /\ doc_frame data data'.
Proof.
  unfold merge_packages. revert data.
  induction packages as [|p rest IH]; intros data; simpl.
  - intros [= <-]. split; [constructor |]. split; [by intros x Hx | by left].
  - destruct (merge_package _ _ _ _ data p) as [data1|] eqn:E; simpl; [|done].
    intros Hrest. destruct (IH _ Hrest) as (Hall & Hk & Hf).
    destruct (merge_package_ok _ _ _ E) as (Hp & Hk1 & Hf1).
    split; [|split].
    + constructor; [|done]. by eapply package_settled_keeps.
    + by eapply keeps_trans.
    + by eapply doc_frame_trans.
Qed.

Lemma merge_packages_nodup packages data data' :
  listed_nodup data ->
  merge_packages py_str declared vendor_dir path packages data = Ok data' ->
  listed_nodup data'.
Proof.
  unfold merge_packages. apply rfold_invariant. clear data data'.
  intros data p data' Hnd. unfold merge_package.
  destruct (package_path_r py_str vendor_dir p) as [dir|]; simpl; [|done].
  destruct (declared p) as [listed|]; simpl; [|done].
  destruct (py_iter listed) as [names|]; simpl; [|done].
  apply rfold_invariant; [|done]. clear Hnd data data'.
  intros data d data' Hnd. unfold append_reference.
  destruct (join_relative _ _ d) as [reference|]; simpl; [|done].
  by apply append_missing_nodup.
Qed.

Lemma merge_packages_fix packages data :
  settled packages data ->
  merge_packages py_str declared vendor_dir path packages data = Ok data.
Proof.
  unfold merge_packages.
  induction 1 as [|p rest (listed & names & Hdir & Hd & Hi & Hall) _ IH]; [done |].
  simpl. unfold merge_package at 1. rewrite Hdir. simpl.
  rewrite Hd. simpl. rewrite Hi. simpl.
  by rewrite (append_references_fix _ _ _ Hall).
Qed.

End MergeLoops.

(** Two ways to read the packages' metadata that succeed alike give the same
    merge. *)
Lemma merge_packages_ext py_str declared declared' vendor_dir path packages data data' :
  (forall p listed, p ∈ packages -> declared p = Ok listed <-> declared' p = Ok listed) ->
  merge_packages py_str declared vendor_dir path packages data = Ok data' ->
  merge_packages py_str declared' vendor_dir path packages data = Ok data'.
Proof.
  unfold merge_packages. revert data.
  induction packages as [|p rest IH]; intros data Hext; [done |]. simpl.
  destruct (merge_package _ declared _ _ data p) as [data1|] eqn:E; simpl; [|done].
  intros Hrest.
  assert (E' : merge_package py_str declared' vendor_dir path data p = Ok data1).
  { unfold merge_package in *.
    destruct (package_path_r py_str vendor_dir p) as [dir|]; simpl in *; [|done].
    destruct (declared p) as [listed|] eqn:Hd; simpl in E; [|done].
    apply Hext in Hd; [|by left]. by rewrite Hd. }
  rewrite E'. simpl. apply IH; [|done].
  intros q listed Hq. apply Hext. by right.
Qed.

Lemma settled_ext py_str declared declared' vendor_dir path packages data :
  (forall p listed, p ∈ packages -> declared p = Ok listed <-> declared' p = Ok listed) ->
  settled py_str declared vendor_dir path packages data ->
  settled py_str declared' vendor_dir path packages data.
Proof.
  unfold settled. rewrite !Forall_forall. intros Hext Hs p Hp.
  destruct (Hs p Hp) as (listed & names & Hdir & Hd & Hrest).
  exists listed, names. split; [done |]. split; [by apply Hext | done].
Qed.

(** ** One config, then all of them *)

(** The worlds a run of the updater over the configs [C] can reach from [w]:
    only files of [C] change, no file disappears, and directories are only
    added, none of them where [w] has a file. *)
Definition evolves (C : list string) (w w' : world) : Prop :=
  (forall q, q ∉ C -> files w' !! q = files w !! q)
  /\ (forall q, files w' !! q = None -> files w !! q = None)
  /\ dirs w ⊆ dirs w'
  /\ (forall q, q ∈ dirs w' -> q ∉ dirs w -> files w !! q = None).

Definition ascent (config : string) : string :=
  Str.times "../" (Str.count "/" config).

Section UpdateFacts.

Variable py_str : json -> string.
Variable vendor_dir : string.
Variable packages : list package.

Abbreviation merged w config :=
  (merge_packages py_str (declared_in py_str w vendor_dir) vendor_dir
                  (ascent config) packages).

Lemma load_result_file w q doc :
  load_result w q = Ok doc ->
  (q ∉ dirs w) /\ (exists indent, files w !! q = Some (Json indent doc)).
Proof.
  unfold load_result. destruct (plain_path q); simpl; [|done].
  case_bool_decide as Hq; [done |].
  destruct (files w !! q) as [[indent d| |]|]; try done.
  intros [= <-]. split; [done | by exists indent].
Qed.

Lemma load_result_plain w q doc : load_result w q = Ok doc -> plain_path q = true.
Proof. unfold load_result. by destruct (plain_path q). Qed.

Lemma load_result_intro w q indent doc :
  plain_path q = true ->
  q ∉ dirs w -> files w !! q = Some (Json indent doc) -> load_result w q = Ok doc.
Proof.
  intros Hp Hq Hf. unfold load_result. rewrite Hp. simpl.
  by rewrite bool_decide_eq_false_2, Hf.
Qed.

Lemma write_file_run q c w :
  plain_path q = true ->
  q ∉ dirs w -> is_Some (files w !! q) ->
  write_file q c w = (set_files (<[q := c]> (files w)) w, Ok tt).
Proof.
  intros Hp Hq Hf. unfold write_file, is_file. rewrite Hp. simpl.
  rewrite bool_decide_eq_false_2 by done.
  by rewrite (bool_decide_eq_true_2 _ Hf).
Qed.

Lemma update_config_inv config w w' r :
  update_config py_str vendor_dir packages config w = (w', Ok r) ->
  exists data data',
    load_result w config = Ok data
    /\ getitem data "repository" = Ok r
    /\ (exists listed, getitem data "source-directories" = Ok listed)
    /\ merged w config data = Ok data'
    /\ doc_frame data data'
    /\ files w' = <[config := Json (Some 4) data']> (files w)
    /\ dirs w ⊆ dirs w'
    /\ (forall q, q ∈ dirs w' -> q ∉ dirs w -> files w !! q = None).
Proof.
  unfold update_config, bind at 1. rewrite json_load_run.
  destruct (load_result w config) as [data|] eqn:Hload; [|done].
  unfold bind at 1, lift at 1.
  destruct (getitem data "repository") as [repository|] eqn:Hrepo; [|done].
  unfold bind at 1, lift at 1.
  destruct (getitem data "source-directories") as [listed|] eqn:Hsd; [|done].
  unfold bind at 1.
  destruct (add_packages_run py_str w vendor_dir (ascent config) packages data w
              (more_dirs_refl w)) as (w2 & r2 & Hrun & (Hf & Hd & Hn) & Hr2).
  fold (ascent config). rewrite Hrun.
  destruct r2 as [data'|]; [|done].
  unfold bind, write_file, ret.
  destruct (plain_path config); simpl; [|done].
  destruct (bool_decide (config ∈ dirs w2)); [done |].
  destruct (negb (is_file w2 config) && _); [done |].
  intros [= <- <-]. exists data, data'.
  pose proof (proj1 (Hr2 data') eq_refl) as Hm.
  destruct (merge_packages_ok _ _ _ _ _ _ _ Hm) as (_ & _ & Hframe).
  simpl. rewrite Hf. repeat split; try done. by exists listed.
Qed.

Lemma update_config_intro config w data r listed data' :
  load_result w config = Ok data ->
  getitem data "repository" = Ok r ->
  getitem data "source-directories" = Ok listed ->
  merged w config data = Ok data' ->
  exists w', update_config py_str vendor_dir packages config w = (w', Ok r)
    /\ files w' = <[config := Json (Some 4) data']> (files w)
    /\ dirs w ⊆ dirs w'
    /\ (forall q, q ∈ dirs w' -> q ∉ dirs w -> files w !! q = None).
Proof.
  intros Hload Hrepo Hsd Hm.
  unfold update_config, bind at 1. rewrite json_load_run, Hload.
  unfold bind at 1, lift at 1. rewrite Hrepo.
  unfold bind at 1, lift at 1. rewrite Hsd.
  unfold bind at 1.
  destruct (add_packages_run py_str w vendor_dir (ascent config) packages data w
              (more_dirs_refl w)) as (w2 & r2 & Hrun & (Hf & Hd & Hn) & Hr2).
  fold (ascent config). rewrite Hrun.
  apply Hr2 in Hm as ->.
  destruct (load_result_file _ _ _ Hload) as (Hnd & indent & Hfile).
  assert (Hnd2 : config ∉ dirs w2).
  { intros Hin. specialize (Hn _ Hin Hnd). congruence. }
  unfold bind.
  rewrite write_file_run; [|by eapply load_result_plain |done |by rewrite Hf, Hfile].
  eexists. split; [reflexivity |]. simpl. by rewrite Hf.
Qed.

Lemma evolves_refl C w : evolves C w w.
Proof. by repeat split. Qed.

Lemma evolves_mono C C' w w' : C ⊆ C' -> evolves C w w' -> evolves C' w w'.
Proof.
  intros HC (Hf & Hn & Hd & Hnew). split; [|done].
  intros q Hq. apply Hf. set_solver.
Qed.

Lemma evolves_trans C w1 w2 w3 :
  evolves C w1 w2 -> evolves C w2 w3 -> evolves C w1 w3.
Proof.
  intros (Hf1 & Hn1 & Hd1 & Hnew1) (Hf2 & Hn2 & Hd2 & Hnew2).
  split; [|split; [|split]].
  - intros q Hq. by rewrite Hf2, Hf1.
  - auto.
  - set_solver.
  - intros q Hq3 Hq1. destruct (decide (q ∈ dirs w2)); auto.
Qed.

Lemma update_config_evolves config w w' r :
  update_config py_str vendor_dir packages config w = (w', Ok r) ->
  evolves [config] w w'.
Proof.
  intros (data & data' & Hload & _ & _ & _ & _ & Hf & Hd & Hnew)%update_config_inv.
  split; [|split; [|done]].
  - intros q Hq. rewrite Hf. apply lookup_insert_ne. set_solver.
  - intros q. rewrite Hf. destruct (decide (config = q)) as [->|Hne].
    + by rewrite lookup_insert_eq.
    + by rewrite lookup_insert_ne.
Qed.

Lemma load_result_evolves C w w' q doc :
  evolves C w w' -> q ∉ C -> (load_result w' q = Ok doc <-> load_result w q = Ok doc).
Proof.
  intros (Hf & _ & Hd & Hnew) Hq. unfold load_result. rewrite (Hf q Hq).
  destruct (plain_path q); simpl; [|done].
  destruct (decide (q ∈ dirs w)) as [Hin|Hin].
  - by rewrite !bool_decide_eq_true_2 by set_solver.
  - rewrite (bool_decide_eq_false_2 (q ∈ dirs w)) by done.
    destruct (decide (q ∈ dirs w')) as [Hin'|Hin'].
    + rewrite bool_decide_eq_true_2 by done. by rewrite (Hnew q Hin' Hin).
    + by rewrite bool_decide_eq_false_2 by done.
Qed.

Lemma declared_in_evolves C w w' p listed :
  evolves C w w' -> metadata_path py_str vendor_dir p ∉ C ->
  (declared_in py_str w' vendor_dir p = Ok listed
   <-> declared_in py_str w vendor_dir p = Ok listed).
Proof.
  intros He Hq. unfold declared_in.
  destruct (load_result w' _) as [d'|] eqn:E';
    destruct (load_result w _) as [d|] eqn:E; simpl; try done.
  - apply (load_result_evolves _ _ _ _ _ He Hq) in E'.
    by replace d' with d by congruence.
  - apply (load_result_evolves _ _ _ _ _ He Hq) in E'. congruence.
  - apply (load_result_evolves _ _ _ _ _ He Hq) in E. congruence.
Qed.

Lemma more_dirs_evolves w w' : more_dirs w w' -> evolves [] w w'.
Proof.
  intros (Hf & Hd & Hn). split; [by rewrite Hf |]. split; [by rewrite Hf | done].
Qed.

End UpdateFacts.

Section Configs.

Variable py_str : json -> string.
Variable vendor_dir : string.
Variable packages : list package.

(** The loop of [update_elm_package], from any value of [repository]. *)
Definition update_loop (configs : list string) (repository : json) : M json :=
  fold_each configs
            (fun _ config => update_config py_str vendor_dir packages config)
            repository.

(** No config file is the metadata file of one of the packages. The
    updater takes paths of the model only, and two of them are one file
    exactly when they are one string. *)
Definition no_alias (configs : list string) : Prop :=
  forall config p, config ∈ configs -> p ∈ packages ->
                   config <> metadata_path py_str vendor_dir p.

(** The file of a config, as the updater leaves it: printed with indent 4,
    with [r] as repository and a reference for every declared directory. *)
Definition config_settled (w : world) (config : string) (r : json) : Prop :=
  exists data listed,
    plain_path config = true
    /\ (config ∉ dirs w)
    /\ files w !! config = Some (Json (Some 4) data)
    /\ getitem data "repository" = Ok r
    /\ getitem data "source-directories" = Ok listed
    /\ settled py_str (declared_in py_str w vendor_dir) vendor_dir
               (ascent config) packages data.

Lemma config_settled_fun w config r r' :
  config_settled w config r -> config_settled w config r' -> r = r'.
Proof.
  intros (d & l & _ & _ & Hf & Hr & _) (d' & l' & _ & _ & Hf' & Hr' & _).
  congruence.
Qed.

Lemma config_settled_evolves C w w' config r :
  evolves C w w' -> config ∉ C ->
  (forall p, p ∈ packages -> metadata_path py_str vendor_dir p ∉ C) ->
  config_settled w config r -> config_settled w' config r.
Proof.
  intros He Hc Hmeta (data & listed & Hplain & Hnd & Hf & Hr & Hl & Hs).
  exists data, listed. pose proof He as (Hfiles & Hnone & Hd & Hnew).
  split; [done |]. split; [|split; [|split; [|split]]]; try done.
  - intros Hin. specialize (Hnew _ Hin Hnd). congruence.
  - by rewrite Hfiles.
  - eapply settled_ext; [|exact Hs].
    intros p l Hp. symmetry. apply (declared_in_evolves _ _ C); [done |].
    by apply Hmeta.
Qed.

Lemma config_settled_run w config r :
  config_settled w config r ->
  exists w', update_config py_str vendor_dir packages config w = (w', Ok r)
             /\ more_dirs w w'.
Proof.
  intros (data & listed & Hplain & Hnd & Hf & Hr & Hl & Hs).
  destruct (update_config_intro py_str vendor_dir packages config w data r listed data)
    as (w' & Hrun & Hfiles & Hd & Hnew); try done.
  - by eapply load_result_intro.
  - by apply merge_packages_fix.
  - exists w'. split; [done |]. split; [|done].
    rewrite Hfiles. by apply insert_id.
Qed.

Lemma update_config_settles config w w' r :
  (forall p, p ∈ packages -> config <> metadata_path py_str vendor_dir p) ->
  update_config py_str vendor_dir packages config w = (w', Ok r) ->
  config_settled w' config r.
Proof.
  intros Hmeta Hrun. pose proof (update_config_evolves _ _ _ _ _ _ _ Hrun) as He.
  destruct (update_config_inv _ _ _ _ _ _ _ Hrun)
    as (data & data' & Hload & Hr & (listed & Hl) & Hm & Hframe & Hf & Hd & Hnew).
  destruct (load_result_file _ _ _ Hload) as (Hnd & indent & Hfile).
  destruct (merge_packages_ok _ _ _ _ _ _ _ Hm) as (Hs & _ & _).
  destruct (getitem_frame_ok _ _ _ _ Hframe Hl) as (listed' & Hl').
  exists data', listed'. split; [by eapply load_result_plain |].
  split; [|split; [|split; [|split]]]; try done.
  - intros Hin. specialize (Hnew _ Hin Hnd). congruence.
  - by rewrite Hf, lookup_insert_eq.
  - by rewrite (getitem_frame "repository" data data').
  - eapply settled_ext; [|exact Hs].
    intros p l Hp. symmetry. apply (declared_in_evolves _ _ [config]); [done |].
    intros Hin%list_elem_of_singleton. by apply (Hmeta p Hp).
Qed.

Lemma update_loop_cons config rest r0 w :
  update_loop (config :: rest) r0 w
  = match update_config py_str vendor_dir packages config w with
    | (w', Ok r) => update_loop rest r w'
    | (w', Raise e) => (w', Raise e)
    end.
Proof. reflexivity. Qed.

Lemma update_loop_evolves configs r0 w w1 r :
  update_loop configs r0 w = (w1, Ok r) -> evolves configs w w1.
Proof.
  revert r0 w. induction configs as [|c cs IH]; intros r0 w.
  - intros [= <- <-]. apply evolves_refl.
  - rewrite update_loop_cons.
    destruct (update_config _ _ _ c w) as [wa [ra|]] eqn:Hc; [|done].
    intros Hrest. eapply evolves_trans.
    + eapply evolves_mono; [|by eapply update_config_evolves].
      intros q ->%list_elem_of_singleton. by left.
    + eapply evolves_mono; [|by eapply IH]. intros q Hq. by right.
Qed.

Lemma no_alias_cons c cs :
  no_alias (c :: cs) ->
  (forall p, p ∈ packages -> c <> metadata_path py_str vendor_dir p) /\ no_alias cs.
Proof.
  intros Hna. split.
  - intros p Hp. apply Hna; [by left | done].
  - intros c' p Hc' Hp. apply Hna; [by right | done].
Qed.

(** A first pass leaves every config settled, the last one with the value
    the pass returns. *)
Lemma update_loop_first_pass configs r0 w w1 r :
  no_alias configs ->
  update_loop configs r0 w = (w1, Ok r) ->
  (forall c, c ∈ configs -> exists rc, config_settled w1 c rc)
  /\ (forall c, last configs = Some c -> config_settled w1 c r)
  /\ (configs = [] -> r = r0).
Proof.
  revert r0 w. induction configs as [|c cs IH]; intros r0 w Hna.
  - intros [= <- <-]. split; [by intros c Hc%elem_of_nil |]. by split.
  - rewrite update_loop_cons.
    destruct (update_config _ _ _ c w) as [wa [ra|]] eqn:Hc; [|done].
    intros Hrest. apply no_alias_cons in Hna as [Hmeta Hna].
    destruct (IH _ _ Hna Hrest) as (Hall & Hlast & Hnil).
    pose proof (update_config_settles _ _ _ _ Hmeta Hc) as Hset.
    pose proof (update_loop_evolves _ _ _ _ _ Hrest) as Hev.
    assert (Hc1 : c ∉ cs -> config_settled w1 c ra).
    { intros Hnot. eapply config_settled_evolves; [exact Hev | done | | done].
      intros p Hp Hin. by apply (Hna _ p Hin Hp). }
    split; [|split; [|done]].
    + intros c' [->|Hin]%elem_of_cons; [|by apply Hall].
      destruct (decide (c ∈ cs)) as [Hin|Hnot]; [by apply Hall |].
      exists ra. by apply Hc1.
    + destruct cs as [|c2 cs'].
      * intros c' [= <-]. injection Hrest as <- <-. apply Hc1, not_elem_of_nil.
      * intros c' Hc'. by apply Hlast.
Qed.

(** A pass over settled configs changes no file and returns the repository
    of the last one. *)
Lemma update_loop_second_pass configs r0 v :
  (forall c, c ∈ configs -> exists rc, config_settled v c rc) ->
  exists v' r', update_loop configs r0 v = (v', Ok r')
    /\ more_dirs v v'
    /\ (forall c, last configs = Some c -> config_settled v c r')
    /\ (configs = [] -> r' = r0).
Proof.
  revert r0 v. induction configs as [|c cs IH]; intros r0 v Hall.
  - exists v, r0. split; [done |]. split; [apply more_dirs_refl | by split].
  - destruct (Hall c ltac:(by left)) as (rc & Hc).
    destruct (config_settled_run _ _ _ Hc) as (va & Hrun & Hm).
    assert (Hkeep : forall c' r', config_settled v c' r' -> config_settled va c' r').
    { intros c' r' Hs. eapply config_settled_evolves;
        [by apply more_dirs_evolves | apply not_elem_of_nil | | done].
      intros p _. apply not_elem_of_nil. }
    destruct (IH rc va) as (v' & r' & Hrest & Hm' & Hlast & Hnil).
    { intros c' Hc'. destruct (Hall c' ltac:(by right)) as (r' & Hs).
      exists r'. by apply Hkeep. }
    exists v', r'. rewrite update_loop_cons, Hrun.
    split; [done |]. split; [by eapply more_dirs_trans |]. split; [|done].
    destruct cs as [|c2 cs'].
    + intros c' [= <-]. by rewrite (Hnil eq_refl).
    + intros c' Hc'. destruct (Hall c' ltac:(right; by eapply last_Some_elem_of))
        as (r'' & Hs).
      specialize (Hlast c' Hc').
      by rewrite (config_settled_fun _ _ _ _ Hlast (Hkeep _ _ Hs)).
Qed.

Lemma update_config_nodup config w w' r indent data :
  update_config py_str vendor_dir packages config w = (w', Ok r) ->
  files w !! config = Some (Json indent data) -> listed_nodup data ->
  exists data', files w' !! config = Some (Json (Some 4) data') /\ listed_nodup data'.
Proof.
  intros (d & d' & Hload & _ & _ & Hm & _ & Hf & _)%update_config_inv Hfile Hnd.
  destruct (load_result_file _ _ _ Hload) as (_ & i & Hfile').
  rewrite Hfile in Hfile'. injection Hfile' as _ <-.
  exists d'. split; [by rewrite Hf, lookup_insert_eq |].
  by eapply merge_packages_nodup.
Qed.

Lemma update_loop_nodup configs r0 w w1 r config indent data :
  update_loop configs r0 w = (w1, Ok r) -> config ∈ configs ->
  files w !! config = Some (Json indent data) -> listed_nodup data ->
  exists data', files w1 !! config = Some (Json (Some 4) data') /\ listed_nodup data'.
Proof.
  revert r0 w indent data. induction configs as [|c cs IH];
    intros r0 w indent data Hrun Hin Hfile Hnd; [by apply elem_of_nil in Hin |].
  rewrite update_loop_cons in Hrun.
  destruct (update_config _ _ _ c w) as [wa [ra|]] eqn:Hc; [|done].
  pose proof (update_config_evolves _ _ _ _ _ _ _ Hc) as (Hother & _).
  destruct (decide (config = c)) as [->|Hne].
  - destruct (update_config_nodup _ _ _ _ _ _ Hc Hfile Hnd) as (d1 & Hfile1 & Hnd1).
    destruct (decide (c ∈ cs)) as [Hcs|Hcs]; [by eapply IH |].
    exists d1. split; [|done].
    pose proof (update_loop_evolves _ _ _ _ _ Hrun) as (Hrest & _).
    by rewrite (Hrest _ Hcs).
  - apply elem_of_cons in Hin as [->|Hin]; [done |].
    eapply IH; [done | done | | done].
    rewrite <- Hfile. apply Hother. by intros ->%list_elem_of_singleton.
Qed.

(** C4 (as amended). When no config file is itself the metadata file of one
    of the packages, a second run of the config updater with the same
    configs and packages, started where a successful first run ended,
    succeeds, returns the same repository and leaves every file as the
    first run left it: each [source-directories] list is the one the first
    run wrote. And a run introduces no duplicate: a config whose list had no
    repeated entry has none afterwards. *)
Theorem update_elm_package_idempotent (configs : list string) (w w1 : world)
    (r : json) :
  no_alias configs ->
  update_elm_package py_str vendor_dir configs packages w = (w1, Ok r) ->
  (exists w2, update_elm_package py_str vendor_dir configs packages w1 = (w2, Ok r)
              /\ files w2 = files w1)
  /\ (forall config indent data,
        config ∈ configs ->
        files w !! config = Some (Json indent data) -> listed_nodup data ->
        exists data', files w1 !! config = Some (Json (Some 4) data')
                      /\ listed_nodup data').
Proof.
  intros Hna Hrun. split.
  - destruct (update_loop_first_pass _ _ _ _ _ Hna Hrun) as (Hall & Hlast & Hnil).
    destruct (update_loop_second_pass configs (JStr "") w1 Hall)
      as (w2 & r' & Hrun2 & (Hf & _) & Hlast' & Hnil').
    exists w2. split; [|done].
    change (update_loop configs (JStr "") w1 = (w2, Ok r)). rewrite Hrun2.
    do 2 f_equal. destruct (last configs) as [c|] eqn:El.
    + by eapply config_settled_fun; [apply Hlast' | apply Hlast].
    + apply last_None in El. by rewrite Hnil, Hnil'.
  - intros config indent data Hin Hfile Hnd.
    by eapply (update_loop_nodup configs (JStr "")).
Qed.







End Configs.

(** ** The references the updater builds *)

Section References.

Variable py_str : json -> string.








(** C10. With no config, [update_elm_package] leaves the world as it is and
    returns the empty string; [munge_names] on that string raises
    [ValueError] before it starts any process; so a run of [main] that got
    through the fetch stage ends there, with that exception. *)
Theorem no_configs_fails (vendor_dir : string) (packages : list package)
    (w : world) :
  update_elm_package py_str vendor_dir [] packages w = (w, Ok (JStr ""))
  /\ munge_names py_str vendor_dir (JStr "") packages w = (w, Raise ValueError)
  /\ (forall manifest w0 w1 w2 raw parsed fetched,
        read_native_elm_package manifest w0 = (w1, Ok raw) ->
        parse_json raw = Ok parsed ->
        filter_packages py_str vendor_dir parsed w1 = (w2, Ok packages) ->
        fetch_packages py_str vendor_dir packages w2 = (w, Ok fetched) ->
        main py_str manifest [] vendor_dir w0 = (w, Raise ValueError)).
Proof.
  split; [done |]. split; [done |].
  intros manifest w0 w1 w2 raw parsed fetched Hread Hparse Hfilter Hfetch.
  unfold main, bind at 1. rewrite Hread.
  unfold bind at 1, lift at 1. rewrite Hparse.
  unfold bind at 1. rewrite Hfilter.
  unfold bind at 1. by rewrite Hfetch.
Qed.

End References.

(** ** The skip check and the repository name, in general *)

Section Skip.

Variable py_str : json -> string.

Definition marker_path (vendor_dir : string) (p : package) : string :=
  package_path py_str vendor_dir p +:+ "-tar.gz".


End Skip.

Section RepositoryName.

Implicit Types (a z : ascii) (s t chars : string).

(** Every character of [s] belongs to the set [chars]. *)
Fixpoint all_in (chars s : string) : bool :=
  match s with
  | EmptyString => true
  | String a rest => Str.mem a chars && all_in chars rest
  end.

Lemma lstrip_all chars s t :
  all_in chars s = true -> Str.lstrip chars (s +:+ t) = Str.lstrip chars t.
Proof.
  induction s as [|a s IH]; [done |]. rewrite app_cons. simpl.
  intros [Ha Hs]%andb_true_iff. rewrite Ha. by apply IH.
Qed.

Lemma lstrip_stop chars a s :
  Str.mem a chars = false -> Str.lstrip chars (String a s) = String a s.
Proof. intros Ha. simpl. by rewrite Ha. Qed.

Lemma rstrip_all chars s : all_in chars s = true -> Str.rstrip chars s = "".
Proof.
  induction s as [|a s IH]; [done |]. simpl.
  intros [Ha Hs]%andb_true_iff. by rewrite IH, Ha.
Qed.

Lemma rstrip_stop chars s z t :
  Str.mem z chars = false -> all_in chars t = true ->
  Str.rstrip chars (s +:+ String z t) = s +:+ String z "".
Proof.
  intros Hz Ht. induction s as [|a s IH].
  - rewrite !app_empty_l. simpl. by rewrite (rstrip_all _ _ Ht), Hz.
  - rewrite !app_cons. simpl. rewrite IH.
    by destruct s; rewrite ?app_empty_l, ?app_cons.
Qed.

(** [namespace_from_repo] returns the owner and the name of a GitHub URL when
    the owner does not start with a character of [https://github.com/] and
    the name does not end with one of [.git]. *)
Theorem namespace_from_repo_ok (a z : ascii) (owner repo : string) :
  Str.mem a "https://github.com/" = false ->
  Str.mem z ".git" = false ->
  Str.count "/" (String a owner) = 0 ->
  Str.count "/" (repo +:+ String z "") = 0 ->
  namespace_from_repo
    (JStr ("https://github.com/" +:+ String a owner +:+ "/"
             +:+ (repo +:+ String z "") +:+ ".git"))
  = Ok (String a owner, repo +:+ String z "").
Proof.
  intros Ha Hz Hown Hrepo. unfold namespace_from_repo.
  rewrite lstrip_all by done.
  rewrite app_cons, lstrip_stop by done.
  replace (String a (owner +:+ "/" +:+ (repo +:+ String z "") +:+ ".git"))
    with ((String a owner +:+ "/" +:+ repo) +:+ String z ".git").
  2:{ rewrite !app_cons, !app_assoc_s. by repeat f_equal. }
  rewrite rstrip_stop by done.
  rewrite !app_assoc_s, (app_cons "/"), app_empty_l.
  rewrite split_app_sep by done. by rewrite split_no_sep.
Qed.

End RepositoryName.

(** ** A project, run step by step

    The end-to-end scenario: the manifest asks for [elm-lang/navigation]
    2.0.0, the vendor directory is [vendor/assets/elm], and the project has
    two configs. *)

Definition str_of_other : json -> string := fun _ => "".

Definition navigation : package := Package "elm-lang" "navigation" (JStr "2.0.0").

Definition navigation_archive : content :=
  Tarball [("navigation-2.0.0", MDir);
           ("navigation-2.0.0/elm-package.json",
            MJson (JObj [("version", JStr "2.0.0");
                         ("source-directories", JArr [JStr "src"])]));
           ("navigation-2.0.0/src/Navigation.elm", MBlob)].

Definition project_config : json :=
  JObj [("version", JStr "1.0.0");
        ("repository", JStr "https://github.com/acme/app.git");
        ("source-directories", JArr [JStr "src"]);
        ("license", JStr "BSD3")].

Definition tests_config : json :=
  JObj [("repository", JStr "https://github.com/acme/tests.git");
        ("source-directories", JArr [JStr "."; JStr "../src"])].

Definition github (url : string) : option content :=
  if bool_decide (url = "https://github.com/elm-lang/navigation/archive/2.0.0.tar.gz")
  then Some navigation_archive else None.

Definition project_files : gmap string content :=
  <["elm-native-package.json" :=
      Json None (JObj [("elm-lang/navigation", JStr "2.0.0")])]>
  (<["elm-package.json" := Json None project_config]>
  (<["tests/elm-package.json" := Json None tests_config]> ∅)).

Definition w_start : world :=
  World project_files {["tests"]} (fun _ => None) github [] []
        (fun _ => None) (fun _ => None) (fun _ => None).

Definition w_parsed : world :=
  (read_native_elm_package "elm-native-package.json" w_start).1.
Definition w_filtered : world :=
  (filter_packages str_of_other "vendor/assets/elm" [navigation] w_parsed).1.
Definition w_fetched : world :=
  (fetch_packages str_of_other "vendor/assets/elm" [navigation] w_filtered).1.
Definition w_updated : world :=
  (update_elm_package str_of_other "vendor/assets/elm"
     ["tests/elm-package.json"; "elm-package.json"] [navigation] w_fetched).1.
Definition w_done : world :=
  (main str_of_other "elm-native-package.json"
     ["tests/elm-package.json"; "elm-package.json"] "vendor/assets/elm" w_start).1.

Example scenario_succeeds :
  (main str_of_other "elm-native-package.json"
     ["tests/elm-package.json"; "elm-package.json"] "vendor/assets/elm" w_start).2
  = Ok tt
  /\ stdout w_done = ["Downloading elm-lang/navigation 2.0.0"]
  /\ procs w_done
     = [["find"; "vendor/assets/elm/elm-lang/navigation-2.0.0"; "-type"; "f";
         "-exec"; "sed"; "-i"; ""; "-e"; "s/_elm_lang$navigation/_acme$app/g";
         "{}"; ";"]]
  /\ files w_done !! "elm-package.json"
     = Some (Json (Some 4)
               (JObj [("version", JStr "1.0.0");
                      ("repository", JStr "https://github.com/acme/app.git");
                      ("source-directories",
                       JArr [JStr "src";
                             JStr "vendor/assets/elm/elm-lang/navigation-2.0.0/src"]);
                      ("license", JStr "BSD3")]))
  /\ files w_done !! "tests/elm-package.json"
     = Some (Json (Some 4)
               (JObj [("repository", JStr "https://github.com/acme/tests.git");
                      ("source-directories",
                       JArr [JStr "."; JStr "../src";
                             JStr "../vendor/assets/elm/elm-lang/navigation-2.0.0/src"])])).
Proof. vm_compute. repeat split. Qed.

(** ** The claims on concrete inputs *)

(** C1. After a first complete run the archive marker exists, as the regular
    file [fetch_packages] wrote; [filter_packages] tests [os.path.isdir] on
    it, keeps the package, and a second run downloads it again. *)
Theorem marker_file_not_skipped :
  files w_done !! "vendor/assets/elm/elm-lang/navigation-2.0.0-tar.gz"
  = Some navigation_archive
  /\ (filter_packages str_of_other "vendor/assets/elm" [navigation] w_done).2
     = Ok [navigation]
  /\ stdout (main str_of_other "elm-native-package.json"
               ["tests/elm-package.json"; "elm-package.json"]
               "vendor/assets/elm" w_done).1
     = ["Downloading elm-lang/navigation 2.0.0";
        "Downloading elm-lang/navigation 2.0.0"].
Proof. vm_compute. repeat split. Qed.

(** C2. [lstrip] and [rstrip] strip sets of characters, not a prefix and a
    suffix: the owner [stoeffel] loses its first three letters. *)
Theorem namespace_from_repo_strips_owner :
  namespace_from_repo (JStr "https://github.com/stoeffel/editable.git")
  = Ok ("effel", "editable")
  /\ namespace_from_repo (JStr "https://github.com/elm-lang/elm-test.git")
     = Ok ("elm-lang", "elm-tes")
  /\ namespace_from_repo (JStr "https://github.com/github/hub.git")
     = Raise ValueError.
Proof. vm_compute. repeat split. Qed.








Lemma parse_json_keys_witness :
  parse_json (JObj [("elm-lang/navigation", JStr "2.0.0"); ("navigation", JStr "1")])
  = Raise ValueError
  /\ parse_json (JObj [("elm-lang/core/extra", JStr "5.0.0")]) = Raise ValueError
  /\ exists pkgs,
       parse_json (JObj [("elm-lang/navigation", JStr "2.0.0")]) = Ok pkgs
       /\ Forall2 (fun kv p => kv.1 = key_of p /\ version p = kv.2)
                  [("elm-lang/navigation", JStr "2.0.0")] pkgs.
Proof.
  split; [|split].
  - apply (proj1 (parse_json_keys _)). right. left. simpl. discriminate.
  - apply (proj1 (parse_json_keys _)). left. simpl. discriminate.
  - apply (proj2 (parse_json_keys _)). repeat constructor.
Defined.

(** A project whose only config is the metadata file of the vendored
    package itself. *)
Definition navigation_metadata : string :=
  "vendor/assets/elm/elm-lang/navigation-2.0.0/elm-package.json".

Definition w_alias : world :=
  World (<[navigation_metadata :=
             Json None (JObj [("repository", JStr "https://github.com/acme/app.git");
                              ("source-directories", JArr [JStr "src"])])]> ∅)
        ∅ (fun _ => None) github [] []
        (fun _ => None) (fun _ => None) (fun _ => None).

Definition w_alias_once : world :=
  (update_elm_package str_of_other "vendor/assets/elm" [navigation_metadata]
     [navigation] w_alias).1.
Definition w_alias_twice : world :=
  (update_elm_package str_of_other "vendor/assets/elm" [navigation_metadata]
     [navigation] w_alias_once).1.

(** C4, refuted as stated: the first run adds a reference to the package's
    own list of source directories, so the second run finds one more
    directory declared and adds a reference for it. *)
Lemma update_twice_differs :
  (update_elm_package str_of_other "vendor/assets/elm" [navigation_metadata]
     [navigation] w_alias).2 = Ok (JStr "https://github.com/acme/app.git")
  /\ (update_elm_package str_of_other "vendor/assets/elm" [navigation_metadata]
        [navigation] w_alias_once).2 = Ok (JStr "https://github.com/acme/app.git")
  /\ files w_alias_once !! navigation_metadata
     = Some (Json (Some 4)
          (JObj [("repository", JStr "https://github.com/acme/app.git");
                 ("source-directories",
                  JArr [JStr "src";
                        JStr "../../../../../vendor/assets/elm/elm-lang/navigation-2.0.0/src"])]))
  /\ files w_alias_twice !! navigation_metadata
     = Some (Json (Some 4)
          (JObj [("repository", JStr "https://github.com/acme/app.git");
                 ("source-directories",
                  JArr [JStr "src";
                        JStr "../../../../../vendor/assets/elm/elm-lang/navigation-2.0.0/src";
                        JStr "../../../../../vendor/assets/elm/elm-lang/navigation-2.0.0/../../../../../vendor/assets/elm/elm-lang/navigation-2.0.0/src"])]))
  /\ files w_alias_twice !! navigation_metadata
     <> files w_alias_once !! navigation_metadata.
Proof. vm_compute. repeat split; discriminate. Qed.

Lemma update_elm_package_idempotent_witness :
  (exists w2,
      update_elm_package str_of_other "vendor/assets/elm"
        ["tests/elm-package.json"; "elm-package.json"] [navigation] w_updated
      = (w2, Ok (JStr "https://github.com/acme/app.git"))
      /\ files w2 = files w_updated)
  /\ (forall config indent data,
        config ∈ ["tests/elm-package.json"; "elm-package.json"] ->
        files w_fetched !! config = Some (Json indent data) -> listed_nodup data ->
        exists data', files w_updated !! config = Some (Json (Some 4) data')
                      /\ listed_nodup data').
Proof.
  apply (update_elm_package_idempotent str_of_other "vendor/assets/elm" [navigation]
           ["tests/elm-package.json"; "elm-package.json"] w_fetched).
  - intros config p Hc ->%list_elem_of_singleton.
    apply elem_of_cons in Hc as [->|Hc]; [discriminate |].
    apply list_elem_of_singleton in Hc as ->. discriminate.
  - vm_compute. reflexivity.
Defined.






Lemma no_configs_fails_witness :
  update_elm_package str_of_other "vendor/assets/elm" [] [navigation] w_fetched
  = (w_fetched, Ok (JStr ""))
  /\ munge_names str_of_other "vendor/assets/elm" (JStr "") [navigation] w_fetched
     = (w_fetched, Raise ValueError)
  /\ main str_of_other "elm-native-package.json" [] "vendor/assets/elm" w_start
     = (w_fetched, Raise ValueError).
Proof.
  destruct (no_configs_fails str_of_other "vendor/assets/elm" [navigation] w_fetched)
    as (Hupdate & Hmunge & Hmain).
  split; [exact Hupdate |]. split; [exact Hmunge |].
  apply (Hmain "elm-native-package.json" w_start w_parsed w_filtered
           (JObj [("elm-lang/navigation", JStr "2.0.0")]) [navigation] [navigation]).
  - vm_compute. reflexivity.
  - reflexivity.
  - vm_compute. reflexivity.
  - vm_compute. reflexivity.
Defined.

Lemma namespace_from_repo_ok_witness :
  namespace_from_repo (JStr "https://github.com/NoRedInk/noredink.git")
  = Ok ("NoRedInk", "noredink").
Proof.
  apply (namespace_from_repo_ok "N" "k" "oRedInk" "noredin"); reflexivity.
Defined.

Example format_url_doctest :
  format_url str_of_other navigation
  = Ok "https://github.com/elm-lang/navigation/archive/2.0.0.tar.gz".
Proof. reflexivity. Qed.

Example format_vendor_dir_doctest :
  (format_vendor_dir "foo" "bar" w_start).2 = Ok "foo/bar".
Proof. reflexivity. Qed.

Example package_dir_doctest :
  (package_dir str_of_other "vendor/assets/elm" navigation w_start).2
  = Ok "vendor/assets/elm/elm-lang/navigation-2.0.0".
Proof. reflexivity. Qed.

Example format_tar_file_doctest :
  (format_tar_file str_of_other "vendor/assets/elm" navigation w_start).2
  = Ok "vendor/assets/elm/elm-lang/navigation-2.0.0-tar.gz".
Proof. reflexivity. Qed.

Example namespace_from_repo_doctest :
  namespace_from_repo (JStr "https://github.com/NoRedInk/noredink.git")
  = Ok ("NoRedInk", "noredink").
Proof. reflexivity. Qed.

Example format_native_name_doctest :
  format_native_name "elm-lang" "navigation" = Ok "_elm_lang$navigation".
Proof. reflexivity. Qed.

Example parse_json_doctest :
  parse_json (JObj [("elm-lang/navigation", JStr "2.0.0")])
  = Ok [Package "elm-lang" "navigation" (JStr "2.0.0")].
Proof. reflexivity. Qed.

(** ** More of the program: what each stage changes and when it fails *)

(** Nothing was printed, no process was started, and the network and the
    system's refusals are as before. *)
Definition same_env (w w' : world) : Prop :=
  mkdir_fault w' = mkdir_fault w /\ remote w' = remote w
  /\ stdout w' = stdout w /\ procs w' = procs w
  /\ read_fault w' = read_fault w /\ extract_fault w' = extract_fault w
  /\ popen_fault w' = popen_fault w.

Lemma same_env_refl w : same_env w w.
Proof. by repeat split. Qed.

Lemma same_env_trans w1 w2 w3 : same_env w1 w2 -> same_env w2 w3 -> same_env w1 w3.
Proof.
  intros (? & ? & ? & ? & ? & ? & ?) (? & ? & ? & ? & ? & ? & ?).
  repeat split; congruence.
Qed.

Lemma after_makedirs_env path w : same_env w (after_makedirs path w).
Proof.
  unfold after_makedirs, os_makedirs.
  repeat (case_match; simpl; try apply same_env_refl). by repeat split.
Qed.

Lemma after_vendor_env base ns w : same_env w (after_vendor base ns w).
Proof.
  unfold after_vendor. destruct (vendor_path base ns); [|apply same_env_refl].
  apply after_makedirs_env.
Qed.

Lemma prefixes_before_shorter c s q :
  q ∈ prefixes_before c s -> String.length q < String.length s.
Proof.
  revert q. induction s as [|a s IH]; intros q; simpl.
  - by intros ?%elem_of_nil.
  - intros [Hq|Hq]%elem_of_app.
    + destruct (Str.eqb_ascii a c); [|by apply elem_of_nil in Hq].
      apply list_elem_of_singleton in Hq as ->. simpl. lia.
    + apply list_elem_of_fmap in Hq as (q' & -> & Hq'). simpl.
      specialize (IH _ Hq'). lia.
Qed.

Lemma ancestors_shorter path q :
  q ∈ ancestors path -> String.length q < String.length path.
Proof.
  unfold ancestors. intros Hq%list_elem_of_In%filter_In.
  destruct Hq as [Hq _]. apply (prefixes_before_shorter "/"). by apply list_elem_of_In.
Qed.

(** A directory that appears when [path] is created is not longer than it. *)
Lemma after_makedirs_new_dir path w q :
  q ∈ dirs (after_makedirs path w) ->
  q ∈ dirs w \/ String.length q <= String.length path.
Proof.
  unfold after_makedirs, os_makedirs.
  repeat (case_match; simpl; try by left).
  intros [[Hq|Hq%elem_of_list_to_set]%elem_of_union|Hq%elem_of_singleton]%elem_of_union.
  - by left.
  - right. apply ancestors_shorter in Hq. lia.
  - right. subst. lia.
Qed.

Lemma after_vendor_new_dir base ns w q :
  q ∈ dirs (after_vendor base ns w) ->
  q ∈ dirs w \/ String.length q <= String.length (os_path_join base ns).
Proof.
  unfold after_vendor. destruct (vendor_path base ns) as [path|] eqn:E; [|by left].
  apply vendor_path_ok in E as [-> _]. apply after_makedirs_new_dir.
Qed.

Lemma length_app_s s t : String.length (s +:+ t) = String.length s + String.length t.
Proof. induction s as [|a s IH]; [done |]. rewrite app_cons. simpl. by rewrite IH. Qed.

Lemma bind_ok {A B} (m : M A) (k : A -> M B) w w' b :
  bind m k w = (w', Ok b) ->
  exists wa a, m w = (wa, Ok a) /\ k a wa = (w', Ok b).
Proof.
  unfold bind. destruct (m w) as [wa [a|e]]; [|done]. intros H. by exists wa, a.
Qed.

Lemma bind_raise {A B} (m : M A) (k : A -> M B) w w' e :
  bind m k w = (w', Raise e) ->
  m w = (w', Raise e) \/ exists wa a, m w = (wa, Ok a) /\ k a wa = (w', Raise e).
Proof.
  unfold bind. destruct (m w) as [wa [a|e']]; intros H.
  - right. by exists wa, a.
  - left. by injection H as -> ->.
Qed.

(** *** The skip check *)

Section SkipCheck.

Variable py_str : json -> string.

Lemma marker_longer vendor_dir p :
  String.length (os_path_join vendor_dir (namespace p))
  < String.length (marker_path py_str vendor_dir p).
Proof.
  unfold marker_path, package_path. rewrite !length_app_s. simpl. lia.
Qed.

Lemma marker_dir_after_vendor vendor_dir p w :
  marker_path py_str vendor_dir p
    ∈ dirs (after_vendor vendor_dir (namespace p)
              (after_vendor vendor_dir (namespace p) w))
  <-> marker_path py_str vendor_dir p ∈ dirs w.
Proof.
  pose proof (marker_longer vendor_dir p) as Hlen. split.
  - intros [H|H]%after_vendor_new_dir; [|lia].
    apply after_vendor_new_dir in H as [H|H]; [done | lia].
  - intros H. by do 2 apply after_vendor_dirs.
Qed.

(** One turn of the comprehension, for a package that the path helpers
    take. *)
Lemma filter_packages_cons vendor_dir x rest w :
  tidy py_str vendor_dir x = true ->
  let w2 := after_vendor vendor_dir (namespace x)
              (after_vendor vendor_dir (namespace x) w) in
  filter_packages py_str vendor_dir (x :: rest) w
  = match filter_packages py_str vendor_dir rest w2 with
    | (w', Ok kept) =>
        (w', Ok (if bool_decide (marker_path py_str vendor_dir x ∈ dirs w)
                 then kept else x :: kept))
    | (w', Raise e) => (w', Raise e)
    end.
Proof.
  intros Ht. simpl. unfold bind at 1. rewrite format_tar_file_run.
  rewrite (tidy_package_path _ _ _ Ht). simpl.
  unfold bind at 1, os_path_isdir at 1.
  rewrite (tidy_plain_marker _ _ _ Ht). simpl.
  unfold bind, ret.
  destruct (filter_packages py_str vendor_dir rest _) as [w' [kept|e]]; [|done].
  fold (marker_path py_str vendor_dir x).
  rewrite (bool_decide_ext _ _ (marker_dir_after_vendor vendor_dir x w)).
  by destruct (bool_decide _).
Qed.






(** Packages that the path helpers take and whose marker paths are all
    directories are all dropped. *)
Theorem filter_packages_drops_directories (vendor_dir : string)
    (packages : list package) (w : world) :
  Forall (fun p => tidy py_str vendor_dir p = true) packages ->
  (forall p, p ∈ packages -> marker_path py_str vendor_dir p ∈ dirs w) ->
  (filter_packages py_str vendor_dir packages w).2 = Ok [].
Proof.
  intros Htidy Hall.
  cut (exists w', filter_packages py_str vendor_dir packages w = (w', Ok [])).
  { by intros (w' & ->). }
  revert w Hall. induction Htidy as [|x rest Hx Hrest IH]; intros w Hall;
    [by exists w |].
  rewrite (filter_packages_cons _ _ _ _ Hx). simpl.
  set (w2 := after_vendor _ _ (after_vendor _ _ w)).
  assert (Hd : dirs w ⊆ dirs w2).
  { etrans; apply after_vendor_dirs. }
  destruct (IH w2) as (w' & ->).
  { intros p Hp. apply Hd, Hall. by right. }
  exists w'. rewrite bool_decide_eq_true_2; [done |]. apply Hall. by left.
Qed.

End SkipCheck.

(** *** Names *)

Lemma replace_count a b s : a <> b -> Str.count a (Str.replace a b s) = 0.
Proof.
  intros Hab. induction s as [|c s IH]; [done |]. simpl. rewrite IH.
  destruct (Str.eqb_ascii c a) eqn:E.
  - assert (Str.eqb_ascii b a = false) as ->; [|done].
    apply eqb_ascii_neq. congruence.
  - by rewrite E.
Qed.

Lemma replace_replace a b s :
  a <> b -> Str.replace a b (Str.replace a b s) = Str.replace a b s.
Proof.
  intros Hab. induction s as [|c s IH]; [done |]. simpl. rewrite IH. f_equal.
  destruct (Str.eqb_ascii c a) eqn:E; [|by rewrite E].
  assert (Str.eqb_ascii b a = false) as ->; [|done].
  apply eqb_ascii_neq. congruence.
Qed.

Lemma format_native_name_run ns nm :
  format_native_name ns nm
  = py_format (Str.is_ascii ns && Str.is_ascii nm) (native_name ns nm).
Proof.
  unfold format_native_name, native_name. by rewrite !is_ascii_replace.
Qed.

(** [format_native_name] raises exactly when the namespace or the name has a
    character that is not ASCII; the native prefix it returns has no
    hyphen, and a namespace or name written with underscores gets what the
    one written with hyphens gets. *)
Theorem format_native_name_hyphens (ns nm : string) :
  format_native_name ns nm
  = (if Str.is_ascii ns && Str.is_ascii nm
     then Ok ("_" +:+ Str.replace "-" "_" ns +:+ "$" +:+ Str.replace "-" "_" nm)
     else Raise UnicodeEncodeError)
  /\ (forall s, format_native_name ns nm = Ok s -> Str.count "-" s = 0)
  /\ format_native_name (Str.replace "-" "_" ns) (Str.replace "-" "_" nm)
     = format_native_name ns nm.
Proof.
  split; [apply format_native_name_run |]. split.
  - intros s. rewrite format_native_name_run. unfold py_format, native_name.
    destruct (_ && _); [|done]. intros [= <-].
    rewrite !count_app, !replace_count by done. reflexivity.
  - rewrite !format_native_name_run. unfold native_name.
    by rewrite !replace_replace, !is_ascii_replace.
Qed.

Lemma parse_items_ok_keys fields pkgs :
  parse_items fields [] = Ok pkgs ->
  Forall2 (fun kv p => kv.1 = key_of p /\ version p = kv.2) fields pkgs.
Proof.
  revert pkgs. induction fields as [|[key ver] rest IH]; intros pkgs.
  - intros [= <-]. constructor.
  - rewrite parse_items_cons.
    destruct (Str.split "/" key) as [|ns [|nm [|]]] eqn:Hs; simpl; try done.
    destruct (parse_items rest []) as [ps|]; simpl; [|done].
    intros [= <-]. constructor; [|by apply IH].
    split; [|done]. simpl. unfold key_of. simpl. by apply split_two.
Qed.

Lemma split_two_clean c s ns nm :
  Str.split c s = [ns; nm] -> Str.count c ns = 0 /\ Str.count c nm = 0.
Proof.
  intros Hs. pose proof (split_length c s) as Hl. rewrite Hs in Hl. simpl in Hl.
  apply split_two in Hs as ->. rewrite count_sep_app in Hl. lia.
Qed.

Lemma parse_items_clean fields pkgs :
  parse_items fields [] = Ok pkgs ->
  Forall (fun p => Str.count "/" (namespace p) = 0 /\ Str.count "/" (name p) = 0)
         pkgs.
Proof.
  revert pkgs. induction fields as [|[key ver] rest IH]; intros pkgs.
  - intros [= <-]. constructor.
  - rewrite parse_items_cons.
    destruct (Str.split "/" key) as [|ns [|nm [|]]] eqn:Hs; simpl; try done.
    destruct (parse_items rest []) as [ps|]; simpl; [|done].
    intros [= <-]. constructor; [|by apply IH].
    simpl. by apply (split_two_clean "/" key).
Qed.

(** The descriptors [parse_json] returns are as many as the manifest has
    items, and neither the namespace nor the name of any of them contains a
    [/]. *)
Theorem parse_json_no_slash (raw : json) (pkgs : list package) :
  parse_json raw = Ok pkgs ->
  (exists fields, raw = JObj fields /\ length pkgs = length fields)
  /\ Forall (fun p => Str.count "/" (namespace p) = 0
                      /\ Str.count "/" (name p) = 0) pkgs.
Proof.
  destruct raw as [| | | | |fields]; try done. unfold parse_json. simpl.
  intros Hp. split; [|by eapply parse_items_clean].
  exists fields. split; [done |].
  apply parse_items_ok_keys in Hp. symmetry. by eapply Forall2_length.
Qed.

(** *** The fetcher *)

(** No file disappears. *)
Definition keeps_files (w w' : world) : Prop :=
  forall q, is_Some (files w !! q) -> is_Some (files w' !! q).

Lemma keeps_files_refl w : keeps_files w w.
Proof. by intros q. Qed.

Lemma keeps_files_trans w1 w2 w3 :
  keeps_files w1 w2 -> keeps_files w2 w3 -> keeps_files w1 w3.
Proof. unfold keeps_files. auto. Qed.

Lemma keeps_files_insert w w' q c :
  files w' = <[q := c]> (files w) -> keeps_files w w'.
Proof.
  intros E x Hx. rewrite E. destruct (decide (q = x)) as [->|Hne].
  - by rewrite lookup_insert_eq.
  - by rewrite lookup_insert_ne.
Qed.

Lemma keeps_files_same w w' : files w' = files w -> keeps_files w w'.
Proof. intros E q. by rewrite E. Qed.

(** Files may have been written, none removed; nothing was printed, no
    process was started. *)
Definition writes_only (w w' : world) : Prop :=
  keeps_files w w' /\ same_env w w'.

Lemma writes_only_refl w : writes_only w w.
Proof. split; [apply keeps_files_refl | apply same_env_refl]. Qed.

Lemma writes_only_trans w1 w2 w3 :
  writes_only w1 w2 -> writes_only w2 w3 -> writes_only w1 w3.
Proof.
  intros [? ?] [? ?]. split; [by eapply keeps_files_trans | by eapply same_env_trans].
Qed.

Lemma write_file_writes path c w w' r :
  write_file path c w = (w', r) -> writes_only w w'.
Proof.
  unfold write_file. repeat case_match; intros [= <- _];
    try apply writes_only_refl.
  all: split; [by eapply keeps_files_insert | by repeat split].
Qed.

Lemma write_file_ok path c w w' :
  write_file path c w = (w', Ok tt) -> files w' !! path = Some c.
Proof.
  unfold write_file. repeat case_match; intros [= <-]; simpl;
    by rewrite lookup_insert_eq.
Qed.

Lemma extract_member_writes target m w w' r :
  extract_member target m w = (w', r) -> writes_only w w'.
Proof.
  unfold extract_member.
  repeat (case_match; simpl); intros [= <- _]; try apply writes_only_refl;
    (split; [|by repeat split]); try (by apply keeps_files_same);
    by eapply keeps_files_insert.
Qed.

Lemma extractall_writes target members w w' r :
  tarfile_extractall target members w = (w', r) -> writes_only w w'.
Proof.
  unfold tarfile_extractall. revert w.
  induction members as [|m rest IH]; intros w; simpl.
  - intros [= <- _]. apply writes_only_refl.
  - unfold bind. destruct (extract_member target m w) as [wa [[]|e]] eqn:E.
    + intros Hrest. eapply writes_only_trans; [by eapply extract_member_writes |].
      by apply IH.
    + intros [= <- _]. by eapply extract_member_writes.
Qed.

Lemma tarfile_members_world path w w' r :
  tarfile_members path w = (w', r) -> w' = w.
Proof.
  unfold tarfile_members, bind, read_file, ret, raise.
  repeat case_match; intros ?; by simplify_eq.
Qed.

Section Fetcher.

Variable py_str : json -> string.

(** What [fetch_package] does once the line is printed. *)
Definition download (url tar_filename vendor : string) : M unit :=
  let* tar_file := urlopen url in
  let* _ := write_file tar_filename Blob in
  let* body := response_read url tar_file in
  let* _ := write_file tar_filename body in
  let* members := tarfile_members tar_filename in
  tarfile_extractall vendor members.

Lemma download_writes url tar_filename vendor w w' r :
  download url tar_filename vendor w = (w', r) -> writes_only w w'.
Proof.
  unfold download, bind at 1, urlopen.
  destruct (remote w url); [|intros [= <- _]; apply writes_only_refl].
  unfold bind at 1.
  destruct (write_file tar_filename Blob w) as [w1 [[]|e]] eqn:E1;
    [|intros [= <- _]; by eapply write_file_writes].
  apply write_file_writes in E1.
  unfold bind at 1, response_read.
  destruct (read_fault w1 url); [by intros [= <- _] |].
  unfold bind at 1.
  destruct (write_file tar_filename c w1) as [w2 [[]|e]] eqn:E2;
    [|intros [= <- _]; eapply writes_only_trans; [done | by eapply write_file_writes]].
  apply write_file_writes in E2.
  unfold bind.
  destruct (tarfile_members tar_filename w2) as [w3 [members|e]] eqn:E3;
    apply tarfile_members_world in E3 as ->.
  - intros Hx%extractall_writes.
    eapply writes_only_trans; [done |]. by eapply writes_only_trans.
  - intros [= <- _]. by eapply writes_only_trans.
Qed.

Lemma download_ok url tar_filename vendor w w' :
  download url tar_filename vendor w = (w', Ok tt) ->
  is_Some (files w' !! tar_filename) /\ is_Some (remote w url).
Proof.
  unfold download. intros (w0 & body & Hurl & H)%bind_ok.
  unfold urlopen in Hurl. destruct (remote w url) as [b|] eqn:Hr; [|done].
  injection Hurl as <- <-.
  apply bind_ok in H as (w1 & [] & _ & H).
  apply bind_ok in H as (w1' & body & Hread & H).
  unfold response_read in Hread. destruct (read_fault w1 url); [done |].
  injection Hread as <- <-.
  apply bind_ok in H as (w2 & [] & Hw2 & H).
  apply write_file_ok in Hw2.
  apply bind_ok in H as (w3 & members & Hmem & H).
  apply tarfile_members_world in Hmem as ->.
  apply extractall_writes in H as [Hk _].
  split; [|done]. apply Hk. by rewrite Hw2.
Qed.

(** The world after the three calls of [format_vendor_dir] that come
    before the line is printed. *)
Definition after_paths (vendor_dir : string) (p : package) (w : world) : world :=
  after_vendor vendor_dir (namespace p)
    (after_vendor vendor_dir (namespace p)
       (after_vendor vendor_dir (namespace p) w)).

Lemma after_paths_frame vendor_dir p w :
  files (after_paths vendor_dir p w) = files w
  /\ same_env w (after_paths vendor_dir p w).
Proof.
  unfold after_paths. split; [by rewrite !after_vendor_files |].
  eapply same_env_trans; [|apply after_vendor_env].
  eapply same_env_trans; apply after_vendor_env.
Qed.

(** [fetch_package] stops before it prints, on an error of the path helpers
    or of a format, or it prints the line and goes on to the download. *)
Lemma fetch_package_split vendor_dir p w w' r :
  fetch_package py_str vendor_dir p w = (w', r) ->
  (tidy py_str vendor_dir p = false
   /\ (exists e, r = Raise e) /\ files w' = files w /\ same_env w w')
  \/ (package_path_r py_str vendor_dir p = Ok (package_path py_str vendor_dir p)
      /\ download (package_url py_str p) (marker_path py_str vendor_dir p)
                  (os_path_join vendor_dir (namespace p))
                  (set_stdout (stdout w ++ [download_line py_str p])
                              (after_paths vendor_dir p w))
         = (w', r)).
Proof.
  unfold fetch_package, bind at 1. rewrite format_tar_file_run.
  set (w2 := after_vendor _ _ (after_vendor _ _ w)).
  assert (Hw2 : files w2 = files w /\ same_env w w2).
  { split; [by unfold w2; rewrite !after_vendor_files |].
    eapply same_env_trans; apply after_vendor_env. }
  destruct (package_path_r py_str vendor_dir p) as [dir|e] eqn:Hdir; simpl.
  2:{ intros [= <- <-]. left. split; [|by eauto].
      destruct (tidy py_str vendor_dir p) eqn:Ht; [|done].
      by rewrite (tidy_package_path _ _ _ Ht) in Hdir. }
  pose proof Hdir as Hdir'. apply package_path_r_ok in Hdir' as (-> & Hv & _).
  unfold bind at 1. rewrite format_vendor_dir_run, Hv.
  fold (after_paths vendor_dir p w).
  destruct (after_paths_frame vendor_dir p w) as [Hf3 He3].
  unfold bind at 1, lift at 1, format_url, py_format.
  destruct (fields_encodable p) eqn:Henc.
  2:{ intros [= <- <-]. left. split; [|by eauto].
      destruct (tidy py_str vendor_dir p) eqn:Ht; [|done].
      pose proof (tidy_package_path _ _ _ Ht) as Hok.
      unfold tidy in Ht.
      apply andb_true_iff in Ht as [[[Ha _]%andb_true_iff _]%andb_true_iff _].
      unfold package_path in Ha. rewrite !is_ascii_app in Ha.
      apply andb_true_iff in Ha as [Hj [_ [Hn [_ Hver]%andb_true_iff]%andb_true_iff]%andb_true_iff].
      unfold fields_encodable in Henc. rewrite Hn in Henc.
      assert (encodable (version p) = true) as Hev by by destruct (version p).
      rewrite Hev, !andb_true_r in Henc.
      unfold os_path_join in Hj.
      destruct (Str.startswith "/" (namespace p)); [congruence |].
      destruct (_ || _); rewrite !is_ascii_app in Hj;
        repeat (apply andb_true_iff in Hj as [? Hj]); congruence. }
  unfold bind at 1, lift at 1. unfold bind at 1, print at 1.
  intros H. right. split; [done |].
  destruct He3 as (_ & _ & <- & _). exact H.
Qed.

Lemma fetch_package_ok vendor_dir p w w' :
  fetch_package py_str vendor_dir p w = (w', Ok tt) ->
  stdout w' = stdout w ++ [download_line py_str p]
  /\ procs w' = procs w /\ remote w' = remote w
  /\ keeps_files w w'
  /\ is_Some (files w' !! marker_path py_str vendor_dir p)
  /\ is_Some (remote w (package_url py_str p)).
Proof.
  intros [(_ & (e & He) & _)|(_ & Hd)]%fetch_package_split; [done |].
  destruct (after_paths_frame vendor_dir p w) as [Hf3 (_ & Hr3 & Hs3 & Hp3 & _)].
  destruct (download_writes _ _ _ _ _ _ Hd) as [Hk (_ & Hr & Hs & Hp & _)].
  destruct (download_ok _ _ _ _ _ Hd) as [Hm Hu].
  simpl in *. rewrite Hs, Hp, Hr, Hp3, Hr3.
  split; [done |]. split; [done |]. split; [done |].
  split; [|split; [done | by rewrite <- Hr3]].
  intros q Hq. apply Hk. simpl. by rewrite Hf3.
Qed.

Lemma fetch_package_raise vendor_dir p w w' e :
  tidy py_str vendor_dir p = true ->
  fetch_package py_str vendor_dir p w = (w', Raise e) ->
  stdout w' = stdout w ++ [download_line py_str p]
  /\ procs w' = procs w /\ remote w' = remote w
  /\ keeps_files w w'.
Proof.
  intros Ht [(Hf & _)|(_ & Hd)]%fetch_package_split; [congruence |].
  destruct (after_paths_frame vendor_dir p w) as [Hf3 (_ & Hr3 & Hs3 & Hp3 & _)].
  destruct (download_writes _ _ _ _ _ _ Hd) as [Hk (_ & Hr & Hs & Hp & _)].
  simpl in *. rewrite Hs, Hp, Hr, Hp3, Hr3.
  split; [done |]. split; [done |]. split; [done |].
  intros q Hq. apply Hk. simpl. by rewrite Hf3.
Qed.

Lemma fetch_loop_ok vendor_dir packages w w' :
  for_each packages (fetch_package py_str vendor_dir) w = (w', Ok tt) ->
  stdout w' = stdout w ++ (download_line py_str <$> packages)
  /\ procs w' = procs w
  /\ keeps_files w w'
  /\ (forall p, p ∈ packages ->
        is_Some (files w' !! marker_path py_str vendor_dir p)
        /\ is_Some (remote w (package_url py_str p))).
Proof.
  revert w.
  induction packages as [|p rest IH]; intros w; simpl.
  - intros [= <-]. rewrite app_nil_r. split; [done |]. split; [done |].
    split; [by intros q |]. by intros p ?%elem_of_nil.
  - intros (wa & [] & Hp & Hrest)%bind_ok.
    destruct (fetch_package_ok _ _ _ _ Hp) as (Hs & Hpr & Hr & Hk & Hm & Hu).
    destruct (IH _ Hrest) as (Hs' & Hpr' & Hk' & Hall).
    split; [by rewrite Hs', Hs, <- List.app_assoc |].
    split; [congruence |]. split; [by eapply keeps_files_trans |].
    intros q [->|Hq]%elem_of_cons.
    + split; [by apply Hk' | done].
    + destruct (Hall q Hq) as [Hmq Huq]. split; [done | by rewrite <- Hr].
Qed.

(** A successful fetch returns the list it was given, has printed one line
    per package in the order of the list, has started no process and removed
    no file, found every package's URL, and leaves a file at every package's
    marker path. *)
Theorem fetch_packages_result (vendor_dir : string) (packages fetched : list package)
    (w w' : world) :
  fetch_packages py_str vendor_dir packages w = (w', Ok fetched) ->
  fetched = packages
  /\ stdout w' = stdout w ++ (download_line py_str <$> packages)
  /\ procs w' = procs w
  /\ keeps_files w w'
  /\ (forall p, p ∈ packages ->
        is_Some (files w' !! marker_path py_str vendor_dir p)
        /\ is_Some (remote w (package_url py_str p))).
Proof.
  unfold fetch_packages. intros (w1 & [] & Hloop & [= <- <-])%bind_ok.
  split; [done |]. by apply fetch_loop_ok.
Qed.

Lemma fetch_unreachable vendor_dir p rest w :
  tidy py_str vendor_dir p = true ->
  remote w (package_url py_str p) = None ->
  exists w', fetch_packages py_str vendor_dir (p :: rest) w = (w', Raise URLError)
    /\ files w' = files w
    /\ stdout w' = stdout w ++ [download_line py_str p]
    /\ procs w' = procs w.
Proof.
  intros Ht Hremote. unfold fetch_packages. simpl.
  unfold bind at 1. unfold bind at 1.
  destruct (fetch_package py_str vendor_dir p w) as [w' r] eqn:E.
  apply fetch_package_split in E as [(Hf & _)|(_ & Hd)]; [congruence |].
  destruct (after_paths_frame vendor_dir p w) as [Hf3 (_ & Hr3 & Hs3 & Hp3 & _)].
  unfold download, bind at 1, urlopen in Hd. simpl in Hd.
  rewrite Hr3, Hremote in Hd. injection Hd as <- <-.
  eexists. split; [reflexivity |]. simpl. by rewrite Hf3, Hp3.
Qed.

(** For a package that the path helpers take: the fetch stops at the first
    package whose URL gives nothing: its line was printed, no file was
    written, and the packages after it are not tried. *)
Theorem fetch_packages_fail_fast (vendor_dir : string) (p : package)
    (rest : list package) (w : world) :
  tidy py_str vendor_dir p = true ->
  remote w (package_url py_str p) = None ->
  exists w', fetch_packages py_str vendor_dir (p :: rest) w = (w', Raise URLError)
    /\ files w' = files w
    /\ stdout w' = stdout w ++ [download_line py_str p]
    /\ procs w' = procs w.
Proof. apply fetch_unreachable. Qed.

Lemma fetch_loop_raise vendor_dir packages w w' e :
  Forall (fun p => tidy py_str vendor_dir p = true) packages ->
  for_each packages (fetch_package py_str vendor_dir) w = (w', Raise e) ->
  exists fetched p rest,
    packages = fetched ++ p :: rest
    /\ stdout w' = stdout w ++ (download_line py_str <$> fetched ++ [p])
    /\ procs w' = procs w
    /\ keeps_files w w'
    /\ (forall q, q ∈ fetched ->
          is_Some (files w' !! marker_path py_str vendor_dir q)).
Proof.
  intros Hall. revert w. induction Hall as [|x xs Hx Hxs IH]; intros w; simpl;
    [done |].
  intros [Hr|(wa & [] & Hok & Hrest)]%bind_raise.
  - destruct (fetch_package_raise _ _ _ _ _ Hx Hr) as (Hs & Hp & _ & Hk).
    exists [], x, xs. split; [done |]. split; [done |]. split; [done |].
    split; [done |]. by intros q ?%elem_of_nil.
  - destruct (fetch_package_ok _ _ _ _ Hok) as (Hs & Hp & _ & Hk & Hm & _).
    destruct (IH _ Hrest) as (fetched & p & rest & -> & Hs' & Hp' & Hk' & Hm').
    exists (x :: fetched), p, rest. split; [done |].
    split; [by rewrite Hs', Hs, <- List.app_assoc |].
    split; [congruence |]. split; [by eapply keeps_files_trans |].
    intros q [->|Hq]%elem_of_cons; [by apply Hk' | by apply Hm'].
Qed.

(** A fetch of packages that the path helpers take, when it fails with an
    exception of the program, whichever it is (of the network, of the read
    of the answer, of the archive or of its extraction), has fetched the
    packages before the failing one and has printed their lines and the
    line of the failing one, in order; it has tried none after it, has
    started no process and removed no file; and the archives it did fetch
    are at their marker paths. *)
Theorem fetch_packages_failure (vendor_dir : string) (packages : list package)
    (w w' : world) (e : exn) :
  Forall (fun p => tidy py_str vendor_dir p = true) packages ->
  e <> OutOfScope ->
  fetch_packages py_str vendor_dir packages w = (w', Raise e) ->
  exists fetched p rest,
    packages = fetched ++ p :: rest
    /\ stdout w' = stdout w ++ (download_line py_str <$> fetched ++ [p])
    /\ procs w' = procs w
    /\ keeps_files w w'
    /\ (forall q, q ∈ fetched ->
          is_Some (files w' !! marker_path py_str vendor_dir q)).
Proof.
  intros Hall _. unfold fetch_packages.
  intros [H|(wa & [] & _ & H)]%bind_raise; [|done].
  by eapply fetch_loop_raise.
Qed.

(** Round trip of the manifest key. For a manifest that [parse_json]
    accepts, [format_url] of each descriptor puts the key back, unchanged,
    between the host and [/archive/], or raises when the key or a version
    that is a string is not ASCII; and a fetch of the descriptors that
    returns has printed, for each item of the manifest in order, the word
    [Downloading], the key and the version. *)
Theorem format_url_of_key (fields : list (string * json)) (pkgs : list package) :
  parse_json (JObj fields) = Ok pkgs ->
  Forall2 (fun kv p =>
             format_url py_str p
             = if Str.is_ascii kv.1 && encodable kv.2
               then Ok ("https://github.com/" +:+ kv.1 +:+ "/archive/"
                          +:+ str_format py_str kv.2 +:+ ".tar.gz")
               else Raise UnicodeEncodeError)
          fields pkgs
  /\ (forall vendor_dir w w' fetched,
        fetch_packages py_str vendor_dir pkgs w = (w', Ok fetched) ->
        stdout w'
        = stdout w ++ ((fun kv => "Downloading " +:+ kv.1 +:+ " "
                                    +:+ str_format py_str kv.2) <$> fields)).
Proof.
  unfold parse_json. simpl. intros Hp%parse_items_ok_keys. split.
  - eapply Forall2_impl; [exact Hp |]. intros [key ver] p [Hk Hv]. simpl in *.
    unfold format_url, py_format, fields_encodable, package_url.
    rewrite Hk, Hv. unfold key_of. rewrite !is_ascii_app. simpl.
    by rewrite !app_assoc_s.
  - intros vendor_dir w w' fetched (w1 & [] & Hloop & [= <- <-])%bind_ok.
    destruct (fetch_loop_ok _ _ _ _ Hloop) as (-> & _). f_equal.
    clear Hloop. induction Hp as [|[key ver] p fs ps [Hk Hv] _ IH]; [done |].
    rewrite !fmap_cons, IH. f_equal. simpl in Hk, Hv. simpl.
    unfold download_line. rewrite Hk, Hv. unfold key_of.
    by rewrite !app_assoc_s.
Qed.

End Fetcher.

(** *** The name munger *)

Section Munger.

Variable py_str : json -> string.

(** The script [sed] gets for a package, as a string. *)
Definition sed_text (p : package) (ns nm : string) : string :=
  "s/" +:+ native_name (namespace p) (name p) +:+ "/" +:+ native_name ns nm
    +:+ "/g".

(** The command [munge_names] starts for a package. *)
Definition find_sed (vendor_dir : string) (ns nm : string) (p : package)
  : list string :=
  ["find"; package_path py_str vendor_dir p; "-type"; "f"; "-exec"; "sed"; "-i";
   ""; "-e"; sed_text p ns nm; "{}"; ";"].

Lemma sed_script_run p ns nm :
  sed_script p ns nm
  = if Str.is_ascii (namespace p) && Str.is_ascii (name p)
       && (Str.is_ascii ns && Str.is_ascii nm)
    then Ok (sed_text p ns nm) else Raise UnicodeEncodeError.
Proof.
  unfold sed_script, sed_text. rewrite !format_native_name_run. unfold py_format.
  destruct (Str.is_ascii (namespace p) && Str.is_ascii (name p)); simpl; [|done].
  by destruct (Str.is_ascii ns && Str.is_ascii nm).
Qed.

Lemma sed_script_ok p ns nm s :
  sed_script p ns nm = Ok s -> s = sed_text p ns nm.
Proof. rewrite sed_script_run. destruct (_ && _); [|done]. by intros [= <-]. Qed.

Lemma tidy_ascii_fields vendor_dir p :
  tidy py_str vendor_dir p = true ->
  Str.is_ascii (namespace p) && Str.is_ascii (name p) = true.
Proof.
  intros Ht. pose proof (tidy_package_path _ _ _ Ht) as Hok.
  unfold tidy in Ht.
  apply andb_true_iff in Ht as [[[Ha _]%andb_true_iff Hns]%andb_true_iff _].
  apply bool_decide_eq_true in Hns.
  unfold package_path in Ha. rewrite !is_ascii_app in Ha.
  apply andb_true_iff in Ha as [Hj [_ [-> _]%andb_true_iff]%andb_true_iff].
  rewrite andb_true_r.
  unfold os_path_join in Hj. rewrite (startswith_no_sep _ Hns) in Hj.
  destruct (_ || _); rewrite !is_ascii_app in Hj;
    repeat (apply andb_true_iff in Hj as [? Hj]); congruence.
Qed.

(** One turn of the loop of [munge_names]. *)
Definition munge_package (vendor_dir ns nm : string) (p : package) : M unit :=
  let* dir := package_dir py_str vendor_dir p in
  let* script := lift (sed_script p ns nm) in
  popen (find_command dir script).

Lemma munge_package_any vendor_dir ns nm p w w' r :
  munge_package vendor_dir ns nm p w = (w', r) ->
  files w' = files w /\ stdout w' = stdout w /\ popen_fault w' = popen_fault w
  /\ ((r = Ok tt /\ procs w' = procs w ++ [find_sed vendor_dir ns nm p])
      \/ ((exists e, r = Raise e) /\ procs w' = procs w)).
Proof.
  unfold munge_package, bind at 1. rewrite package_dir_run.
  destruct (after_vendor_env vendor_dir (namespace p) w)
    as (_ & _ & Hs & Hp & _ & _ & Hpf).
  pose proof (after_vendor_files vendor_dir (namespace p) w) as Hf.
  destruct (package_path_r py_str vendor_dir p) as [dir|e] eqn:Hdir.
  2:{ intros [= <- <-]. do 3 (split; [done |]). right. by eauto. }
  apply package_path_r_ok in Hdir as (-> & _).
  unfold bind at 1, lift.
  destruct (sed_script p ns nm) as [script|e] eqn:Hsed.
  2:{ intros [= <- <-]. do 3 (split; [done |]). right. by eauto. }
  apply sed_script_ok in Hsed as ->. unfold popen.
  destruct (popen_fault _ _) as [e|].
  - intros [= <- <-]. do 3 (split; [done |]). right. by eauto.
  - intros [= <- <-]. simpl. do 3 (split; [done |]). left. by rewrite Hp.
Qed.

Lemma munge_package_run vendor_dir ns nm p w :
  tidy py_str vendor_dir p = true ->
  Str.is_ascii ns && Str.is_ascii nm = true ->
  munge_package vendor_dir ns nm p w
  = match popen_fault w (find_sed vendor_dir ns nm p) with
    | Some e => (after_vendor vendor_dir (namespace p) w, Raise (OSError e))
    | None => (set_procs (procs w ++ [find_sed vendor_dir ns nm p])
                         (after_vendor vendor_dir (namespace p) w), Ok tt)
    end.
Proof.
  intros Ht Ha. unfold munge_package, bind at 1.
  rewrite package_dir_run, (tidy_package_path _ _ _ Ht).
  unfold bind at 1, lift. rewrite sed_script_run, (tidy_ascii_fields _ _ Ht), Ha.
  simpl. unfold popen.
  destruct (after_vendor_env vendor_dir (namespace p) w)
    as (_ & _ & _ & Hp & _ & _ & Hpf).
  fold (find_sed vendor_dir ns nm p). rewrite Hpf, Hp.
  by destruct (popen_fault w _).
Qed.

Lemma munge_loop_any vendor_dir ns nm packages w w' r :
  for_each packages (munge_package vendor_dir ns nm) w = (w', r) ->
  files w' = files w /\ stdout w' = stdout w
  /\ exists started,
       started `prefix_of` packages
       /\ procs w' = procs w ++ (find_sed vendor_dir ns nm <$> started)
       /\ (r = Ok tt -> started = packages).
Proof.
  revert w. induction packages as [|p rest IH]; intros w; simpl.
  - intros [= <- <-]. do 2 (split; [done |]). exists []. by rewrite app_nil_r.
  - unfold bind at 1.
    destruct (munge_package vendor_dir ns nm p w) as [w1 r1] eqn:E.
    apply munge_package_any in E as (Hf & Hs & _ & [[-> Hp]|[[e ->] Hp]]).
    + intros (Hf' & Hs' & started & Hpre & Hp' & Hall)%IH.
      split; [congruence |]. split; [congruence |].
      exists (p :: started). split; [by apply prefix_cons |].
      split; [by rewrite Hp', Hp, <- List.app_assoc |].
      intros Hr. by rewrite Hall.
    + intros [= <- <-]. do 2 (split; [done |]). exists [].
      split; [apply prefix_nil |]. by rewrite app_nil_r.
Qed.

Lemma munge_loop_run vendor_dir ns nm packages w :
  Forall (fun p => tidy py_str vendor_dir p = true) packages ->
  Str.is_ascii ns && Str.is_ascii nm = true ->
  (forall p, p ∈ packages -> popen_fault w (find_sed vendor_dir ns nm p) = None) ->
  exists w', for_each packages (munge_package vendor_dir ns nm) w = (w', Ok tt).
Proof.
  intros Hall Ha. revert w. induction Hall as [|p rest Hp Hrest IH]; intros w Hnf.
  - by exists w.
  - simpl. unfold bind at 1. rewrite munge_package_run by done.
    rewrite Hnf by apply list_elem_of_here.
    apply IH. intros q Hq. simpl.
    destruct (after_vendor_env vendor_dir (namespace p) w)
      as (_ & _ & _ & _ & _ & _ & ->).
    apply Hnf. by apply list_elem_of_further.
Qed.

Lemma munge_names_loop vendor_dir repository packages ns nm w :
  namespace_from_repo repository = Ok (ns, nm) ->
  munge_names py_str vendor_dir repository packages w
  = for_each packages (munge_package vendor_dir ns nm) w.
Proof. intros Hrepo. unfold munge_names, bind at 1, lift. by rewrite Hrepo. Qed.


(** When the repository has the shape [namespace_from_repo] accepts, its
    owner and name are ASCII, the path helpers take the packages and the
    system can start the commands, [munge_names] starts one [find ... sed]
    command per package, in the order of the list, on the package's
    directory, with the package's native prefix as pattern and the project's
    as replacement. When the system cannot start the command of the first
    package, its [OSError] is raised and no command was started. When the
    repository is rejected, the exception comes before any command is
    started, whatever the packages. Whatever it returns or raises,
    [munge_names] changes no file itself, prints nothing, and has started
    the commands of the packages at the front of the list, in order. *)
Theorem munge_names_commands (vendor_dir : string) (repository : json)
    (packages : list package) (w : world) :
  (forall ns nm,
      namespace_from_repo repository = Ok (ns, nm) ->
      Str.is_ascii ns && Str.is_ascii nm = true ->
      Forall (fun p => tidy py_str vendor_dir p = true) packages ->
      (forall p, p ∈ packages ->
         popen_fault w (find_sed vendor_dir ns nm p) = None) ->
      exists w', munge_names py_str vendor_dir repository packages w = (w', Ok tt)
        /\ procs w' = procs w ++ (find_sed vendor_dir ns nm <$> packages))
  /\ (forall ns nm p rest e,
        namespace_from_repo repository = Ok (ns, nm) ->
        Str.is_ascii ns && Str.is_ascii nm = true ->
        packages = p :: rest ->
        tidy py_str vendor_dir p = true ->
        popen_fault w (find_sed vendor_dir ns nm p) = Some e ->
        exists w', munge_names py_str vendor_dir repository packages w
                   = (w', Raise (OSError e))
          /\ procs w' = procs w)
  /\ (forall e,
        namespace_from_repo repository = Raise e ->
        munge_names py_str vendor_dir repository packages w = (w, Raise e))
  /\ (forall w' r,
        munge_names py_str vendor_dir repository packages w = (w', r) ->
        r <> Raise OutOfScope ->
        files w' = files w /\ stdout w' = stdout w
        /\ forall ns nm,
             namespace_from_repo repository = Ok (ns, nm) ->
             exists started,
               started `prefix_of` packages
               /\ procs w' = procs w ++ (find_sed vendor_dir ns nm <$> started)
               /\ (r = Ok tt -> started = packages)).
Proof.
  split; [|split; [|split]].
  - intros ns nm Hrepo Ha Hall Hnf.
    rewrite (munge_names_loop _ _ _ _ _ _ Hrepo).
    destruct (munge_loop_run _ _ _ _ w Hall Ha Hnf) as (w' & Hrun).
    exists w'. split; [done |].
    apply munge_loop_any in Hrun as (_ & _ & started & _ & Hp & Hs).
    by rewrite Hs in Hp.
  - intros ns nm p rest e Hrepo Ha -> Ht Hpf.
    rewrite (munge_names_loop _ _ _ _ _ _ Hrepo). simpl. unfold bind at 1.
    rewrite munge_package_run, Hpf by done.
    eexists. split; [reflexivity |].
    by destruct (after_vendor_env vendor_dir (namespace p) w) as (_ & _ & _ & ? & _).
  - intros e Hrepo. unfold munge_names, bind at 1, lift. by rewrite Hrepo.
  - intros w' r Hrun _.
    destruct (namespace_from_repo repository) as [[ns nm]|e] eqn:Hrepo.
    + rewrite (munge_names_loop _ _ _ _ _ _ Hrepo) in Hrun.
      apply munge_loop_any in Hrun as (Hf & Hs & Hst).
      do 2 (split; [done |]). by intros ? ? [= <- <-].
    + unfold munge_names, bind at 1, lift in Hrun. rewrite Hrepo in Hrun.
      injection Hrun as <- <-. by split.
Qed.

End Munger.

(** *** The config updater: failures and what it leaves alone *)

(** A computation that prints nothing and starts no process, whether it
    returns or raises. *)
Definition quiet {A} (m : M A) : Prop :=
  forall w w' r, m w = (w', r) -> same_env w w'.

Lemma quiet_ret {A} (a : A) : quiet (ret a).
Proof. intros w w' r [= <- _]. apply same_env_refl. Qed.

Lemma quiet_raise {A} e : quiet (@raise A e).
Proof. intros w w' r [= <- _]. apply same_env_refl. Qed.

Lemma quiet_lift {A} (x : result A) : quiet (lift x).
Proof. intros w w' r [= <- _]. apply same_env_refl. Qed.

Lemma quiet_bind {A B} (m : M A) (k : A -> M B) :
  quiet m -> (forall a, quiet (k a)) -> quiet (bind m k).
Proof.
  intros Hm Hk w w' r. unfold bind.
  destruct (m w) as [wa [a|e]] eqn:E.
  - intros Hr. eapply same_env_trans; [by eapply Hm | by eapply Hk].
  - intros [= <- _]. by eapply Hm.
Qed.

Lemma quiet_fold_each {A S} (xs : list A) (body : S -> A -> M S) s :
  (forall s x, quiet (body s x)) -> quiet (fold_each xs body s).
Proof.
  intros Hb. revert s. induction xs as [|x rest IH]; intros s; simpl.
  - apply quiet_ret.
  - apply quiet_bind; [apply Hb | apply IH].
Qed.

Lemma quiet_format_vendor_dir base ns : quiet (format_vendor_dir base ns).
Proof.
  intros w w' r. rewrite format_vendor_dir_run. intros [= <- _].
  apply after_vendor_env.
Qed.

Lemma quiet_json_load path : quiet (json_load path).
Proof.
  intros w w' r. rewrite json_load_run. intros [= <- _]. apply same_env_refl.
Qed.

Lemma quiet_write_file path c : quiet (write_file path c).
Proof. intros w w' r Hrun. by destruct (write_file_writes _ _ _ _ _ Hrun). Qed.

Section Quiet.

Variable py_str : json -> string.

Lemma quiet_package_dir vendor_dir p : quiet (package_dir py_str vendor_dir p).
Proof.
  intros w w' r. rewrite package_dir_run. intros [= <- _].
  apply after_vendor_env.
Qed.

Lemma quiet_update_config vendor_dir packages config :
  quiet (update_config py_str vendor_dir packages config).
Proof.
  unfold update_config.
  apply quiet_bind; [apply quiet_json_load | intros data].
  apply quiet_bind; [apply quiet_lift | intros repository].
  apply quiet_bind; [apply quiet_lift | intros _].
  apply quiet_bind; [|intros data'; apply quiet_bind;
                      [apply quiet_write_file | intros; apply quiet_ret]].
  apply quiet_fold_each. intros d p. unfold add_package.
  apply quiet_bind.
  { unfold get_source_dirs.
    apply quiet_bind; [apply quiet_package_dir | intros dir].
    apply quiet_bind; [apply quiet_json_load | intros; apply quiet_lift]. }
  intros listed. apply quiet_bind; [apply quiet_lift | intros names].
  apply quiet_fold_each. intros d' dn. unfold add_source_dir.
  apply quiet_bind; [apply quiet_package_dir | intros dir].
  apply quiet_bind; [apply quiet_lift | intros reference].
  apply quiet_bind; [apply quiet_lift | intros l].
  apply quiet_bind; [apply quiet_lift | intros present].
  destruct present; [apply quiet_ret |].
  apply quiet_bind; [apply quiet_lift | intros; apply quiet_ret].
Qed.

Lemma quiet_update_elm_package vendor_dir configs packages :
  quiet (update_elm_package py_str vendor_dir configs packages).
Proof.
  unfold update_elm_package. apply quiet_fold_each.
  intros _ config. apply quiet_update_config.
Qed.


(** A failing [update_config] has written nothing, wherever it failed. *)
(** A failing [update_config] has written nothing, wherever it failed. *)
Lemma update_config_raise_files vendor_dir packages config w w' e :
  update_config py_str vendor_dir packages config w = (w', Raise e) ->
  files w' = files w.
Proof.
  unfold update_config, bind at 1. rewrite json_load_run.
  destruct (load_result w config) as [data|]; [|by intros [= <- _]].
  unfold bind at 1, lift at 1.
  destruct (getitem data "repository") as [repository|]; [|by intros [= <- _]].
  unfold bind at 1, lift at 1.
  destruct (getitem data "source-directories") as [listed|]; [|by intros [= <- _]].
  unfold bind at 1.
  destruct (add_packages_run py_str w vendor_dir
              (Str.times "../" (Str.count "/" config)) packages data w
              (more_dirs_refl w)) as (w2 & r2 & Hrun & (Hf & _) & _).
  rewrite Hrun. destruct r2 as [data'|]; [|by intros [= <- _]].
  unfold bind, write_file, ret.
  destruct (negb (plain_path config)); [by intros [= <- _] |].
  destruct (bool_decide (config ∈ dirs w2)); [by intros [= <- _] |].
  destruct (negb (is_file w2 config) && _); [by intros [= <- _] | done].
Qed.



End Quiet.


(** *** Reading a package's metadata *)

Section Metadata.

Variable py_str : json -> string.

Lemma metadata_longer vendor_dir p :
  String.length (os_path_join vendor_dir (namespace p))
  < String.length (metadata_path py_str vendor_dir p).
Proof.
  unfold metadata_path, package_path.
  generalize (os_path_join vendor_dir (namespace p)). intros j.
  unfold os_path_join. simpl.
  destruct (_ || _); rewrite !length_app_s; simpl; lia.
Qed.

Lemma metadata_dir_after_vendor vendor_dir p w :
  metadata_path py_str vendor_dir p
    ∈ dirs (after_vendor vendor_dir (namespace p) w)
  <-> metadata_path py_str vendor_dir p ∈ dirs w.
Proof.
  pose proof (metadata_longer vendor_dir p) as Hlen. split.
  - intros [H|H]%after_vendor_new_dir; [done | lia].
  - apply after_vendor_dirs.
Qed.

Lemma declared_in_after_vendor vendor_dir p w :
  declared_in py_str (after_vendor vendor_dir (namespace p) w) vendor_dir p
  = declared_in py_str w vendor_dir p.
Proof.
  unfold declared_in, load_result. rewrite after_vendor_files.
  by rewrite (bool_decide_ext _ _ (metadata_dir_after_vendor vendor_dir p w)).
Qed.

(** [get_source_dirs] raises what [package_dir] raises; otherwise it gives
    what is stored under [source-directories] in the [elm-package.json] of
    the package's directory as the file is when the call starts, or the
    exception of the read or of the lookup: creating the namespace
    directory on the way changes neither. It writes no file, prints nothing
    and starts nothing. *)
Theorem get_source_dirs_reads (vendor_dir : string) (p : package) (w : world) :
  exists w',
    get_source_dirs py_str vendor_dir p w
    = (w', rbind (package_path_r py_str vendor_dir p) (fun dir =>
           rbind (load_result w (os_path_join dir "elm-package.json"))
                 (fun data => getitem data "source-directories")))
    /\ more_dirs w w' /\ same_env w w'.
Proof.
  eexists. rewrite get_source_dirs_run. simpl.
  rewrite declared_in_after_vendor.
  split; [|split; [apply more_dirs_vendor | apply after_vendor_env]].
  f_equal.
  destruct (package_path_r py_str vendor_dir p) as [dir|] eqn:E; [|done].
  by apply package_path_r_ok in E as (-> & _).
Qed.

End Metadata.

(** *** The config updater: what a successful run has added *)

Lemma rfold_related {A S} (Q : S -> S -> Prop) (f : S -> A -> result S) xs :
  (forall s, Q s s) -> (forall a b c, Q a b -> Q b c -> Q a c) ->
  (forall s x s', x ∈ xs -> f s x = Ok s' -> Q s s') ->
  forall s s', rfold f xs s = Ok s' -> Q s s'.
Proof.
  intros Hrefl Htrans. induction xs as [|x rest IH]; intros Hstep s s'; simpl.
  - by intros [= <-].
  - destruct (f s x) as [s1|] eqn:E; simpl; [|done]. intros Hrest.
    apply (Htrans _ s1).
    + apply (Hstep s x); [by left | done].
    + apply IH; [|done]. intros t y t' Hy. apply Hstep. by right.
Qed.

(** The list under [source-directories] is as it was, or it is an array that
    got entries at its end, each of them a string that satisfies [R]. *)
Definition appended (R : string -> Prop) (data data' : json) : Prop :=
  getitem data' "source-directories" = getitem data "source-directories"
  \/ exists items extra,
       getitem data "source-directories" = Ok (JArr items)
       /\ getitem data' "source-directories" = Ok (JArr (items ++ extra))
       /\ Forall (fun v => exists x, v = JStr x /\ R x) extra.

Lemma appended_refl R data : appended R data data.
Proof. by left. Qed.

Lemma appended_trans R a b c : appended R a b -> appended R b c -> appended R a c.
Proof.
  intros [Hab|(items & extra & Ha & Hb & Hall)].
  - intros [Hbc|(items' & extra' & Hb' & Hc & Hall')].
    + left. congruence.
    + right. exists items', extra'. split; [congruence | done].
  - intros [Hbc|(items' & extra' & Hb' & Hc & Hall')].
    + right. exists items, extra. split; [done |]. split; [congruence | done].
    + right. exists items, (extra ++ extra')%list.
      rewrite Hb in Hb'. injection Hb' as <-.
      split; [done |]. split; [by rewrite List.app_assoc |].
      by apply Forall_app.
Qed.

Lemma appended_mono (R R' : string -> Prop) data data' :
  (forall x, R x -> R' x) -> appended R data data' -> appended R' data data'.
Proof.
  intros HR [H|(items & extra & Ha & Hb & Hall)]; [by left |].
  right. exists items, extra. split; [done |]. split; [done |].
  eapply Forall_impl; [exact Hall |]. intros v (x & -> & Hx). exists x. auto.
Qed.

Lemma append_missing_appended (R : string -> Prop) data reference data' :
  R reference -> append_missing data reference = Ok data' -> appended R data data'.
Proof.
  intros HR. unfold append_missing.
  destruct (getitem data _) as [listed|] eqn:Hl; simpl; [|done].
  destruct (py_contains listed reference) as [[]|]; simpl; [| |done].
  - intros [= <-]. apply appended_refl.
  - destruct listed as [| | | |items|]; try done. simpl. intros [= <-].
    right. exists items, [JStr reference]. split; [done |]. split.
    + destruct data as [| | | | |fields]; try done. simpl in *.
      destruct (assoc _ fields) eqn:E; [|done].
      by rewrite (assoc_set_same _ _ _ _ E).
    + constructor; [|done]. by exists reference.
Qed.

Section Added.

Variable py_str : json -> string.
Variable vendor_dir : string.
Variable packages : list package.

(** [x] is the reference the updater builds, for [config], to a source
    directory that one of the packages declares in the world [w]. *)
Definition declared_reference (w : world) (config : string) (x : string) : Prop :=
  exists p listed dir_names dir_name,
    p ∈ packages
    /\ declared_in py_str w vendor_dir p = Ok listed
    /\ py_iter listed = Ok dir_names
    /\ dir_name ∈ dir_names
    /\ join_relative (ascent config) (package_path py_str vendor_dir p) dir_name
       = Ok x.

Lemma merge_packages_appended w config data data' :
  merge_packages py_str (declared_in py_str w vendor_dir) vendor_dir
                 (ascent config) packages data = Ok data' ->
  appended (declared_reference w config) data data'.
Proof.
  unfold merge_packages.
  apply rfold_related; [apply appended_refl | apply appended_trans |].
  clear data data'. intros data p data' Hp. unfold merge_package.
  destruct (package_path_r py_str vendor_dir p) as [dir|] eqn:Hdir; simpl; [|done].
  apply package_path_r_ok in Hdir as (-> & _).
  destruct (declared_in py_str w vendor_dir p) as [listed|] eqn:Hd; simpl; [|done].
  destruct (py_iter listed) as [names|] eqn:Hi; simpl; [|done].
  apply rfold_related; [apply appended_refl | apply appended_trans |].
  clear data data'. intros data d data' Hin. unfold append_reference.
  destruct (join_relative _ _ d) as [reference|] eqn:Hj; simpl; [|done].
  apply append_missing_appended. by exists p, listed, names, d.
Qed.

Lemma declared_reference_evolves C w w' config x :
  evolves C w w' ->
  (forall p, p ∈ packages -> metadata_path py_str vendor_dir p ∉ C) ->
  declared_reference w' config x -> declared_reference w config x.
Proof.
  intros He Hmeta (p & listed & names & d & Hp & Hd & Hi & Hin & Hj).
  exists p, listed, names, d. split; [done |]. split; [|done].
  by apply (declared_in_evolves py_str vendor_dir C w w' p listed He (Hmeta p Hp)).
Qed.

Lemma update_config_appended config w w' r :
  update_config py_str vendor_dir packages config w = (w', Ok r) ->
  exists indent data data',
    files w !! config = Some (Json indent data)
    /\ files w' !! config = Some (Json (Some 4) data')
    /\ appended (declared_reference w config) data data'.
Proof.
  intros (data & data' & Hload & _ & _ & Hm & _ & Hf & _)%update_config_inv.
  destruct (load_result_file _ _ _ Hload) as (_ & indent & Hfile).
  exists indent, data, data'. split; [done |].
  split; [by rewrite Hf, lookup_insert_eq |]. by apply merge_packages_appended.
Qed.

Lemma update_loop_appended configs r0 w w1 r config :
  no_alias py_str vendor_dir packages configs ->
  update_loop py_str vendor_dir packages configs r0 w = (w1, Ok r) ->
  config ∈ configs ->
  exists indent data data',
    files w !! config = Some (Json indent data)
    /\ files w1 !! config = Some (Json (Some 4) data')
    /\ appended (declared_reference w config) data data'.
Proof.
  revert r0 w. induction configs as [|c cs IH]; intros r0 w Hna Hrun Hin;
    [by apply elem_of_nil in Hin |].
  rewrite update_loop_cons in Hrun.
  destruct (update_config _ _ _ c w) as [wa [ra|]] eqn:Hc; [|done].
  apply no_alias_cons in Hna as [Hmeta Hna].
  pose proof (update_config_evolves _ _ _ _ _ _ _ Hc) as He.
  pose proof He as (Hother & _).
  assert (Hback : forall x, declared_reference wa config x ->
                            declared_reference w config x).
  { intros x. apply (declared_reference_evolves [c]); [done |].
    intros p Hp ->%list_elem_of_singleton%eq_sym. by apply (Hmeta p Hp). }
  destruct (update_config_appended _ _ _ _ Hc) as (i0 & d0 & d1 & Hw & Hwa & Ha01).
  destruct (decide (config ∈ cs)) as [Hcs|Hcs].
  - destruct (IH _ _ Hna Hrun Hcs) as (i1 & e1 & e2 & Hea & He1 & Ha12).
    apply (appended_mono _ _ _ _ Hback) in Ha12.
    destruct (decide (config = c)) as [->|Hne].
    + rewrite Hwa in Hea. injection Hea as <- <-.
      exists i0, d0, e2. repeat split; try done. by eapply appended_trans.
    + exists i1, e1, e2. repeat split; try done.
      rewrite <- Hea. symmetry. apply Hother. by intros ->%list_elem_of_singleton.
  - apply elem_of_cons in Hin as [->|Hin]; [|done].
    exists i0, d0, d1. repeat split; try done.
    pose proof (update_loop_evolves _ _ _ _ _ _ _ _ Hrun) as (Hrest & _).
    by rewrite (Hrest _ Hcs).
Qed.
(** Nothing foreign is added. When no config is the metadata file of one of
    the packages, a successful run, which takes only configs that are paths
    of the model, leaves in each config the list it had, or that list with
    new entries at its end, and every new entry is the reference
    [os.path.join('../' * n, package_dir, dir_name)] to a directory
    [dir_name] that one of the packages declared when the run started. *)
Theorem update_elm_package_adds_references (configs : list string)
    (w w' : world) (r : json) (config : string) :
  no_alias py_str vendor_dir packages configs ->
  update_elm_package py_str vendor_dir configs packages w = (w', Ok r) ->
  config ∈ configs ->
  exists indent data data',
    files w !! config = Some (Json indent data)
    /\ files w' !! config = Some (Json (Some 4) data')
    /\ (getitem data' "source-directories" = getitem data "source-directories"
        \/ exists items extra,
             getitem data "source-directories" = Ok (JArr items)
             /\ getitem data' "source-directories" = Ok (JArr (items ++ extra))
             /\ Forall (fun v => exists x, v = JStr x /\ declared_reference w config x)
                       extra).
Proof.
  intros Hna Hrun Hin.
  exact (update_loop_appended configs (JStr "") w w' r config Hna Hrun Hin).
Qed.

(** Nothing declared is left out. Under the same condition, after a
    successful run every config lists, for every package and every source
    directory the package declared when the run started, the reference to
    that directory. *)
Theorem update_elm_package_complete (configs : list string) (w w' : world)
    (r : json) (config : string) (p : package) :
  no_alias py_str vendor_dir packages configs ->
  update_elm_package py_str vendor_dir configs packages w = (w', Ok r) ->
  config ∈ configs -> p ∈ packages ->
  exists data listed dir_names,
    files w' !! config = Some (Json (Some 4) data)
    /\ declared_in py_str w vendor_dir p = Ok listed
    /\ py_iter listed = Ok dir_names
    /\ Forall (fun dir_name =>
                 exists reference,
                   join_relative (ascent config) (package_path py_str vendor_dir p)
                                 dir_name = Ok reference
                   /\ listed_has data reference)
              dir_names.
Proof.
  intros Hna Hrun Hin Hp.
  destruct (update_loop_first_pass _ _ _ _ _ _ _ _ Hna Hrun) as (Hall & _ & _).
  destruct (Hall _ Hin) as (rc & data & listed0 & _ & _ & Hfile & _ & _ & Hs).
  unfold settled in Hs. rewrite Forall_forall in Hs.
  destruct (Hs p Hp) as (listed & names & _ & Hd & Hi & Hrefs).
  exists data, listed, names. split; [done |]. split; [|done].
  pose proof (update_loop_evolves _ _ _ _ _ _ _ _ Hrun) as He.
  apply (declared_in_evolves py_str vendor_dir configs w w' p listed He); [|done].
  intros Hmeta. by apply (Hna _ p Hmeta Hp).
Qed.

(** A package whose metadata cannot be read, or declares no
    [source-directories], makes the run fail at the first config, and no
    file was written. *)
Theorem update_elm_package_needs_metadata (config : string) (rest : list string)
    (p : package) (w : world) (e : exn) :
  p ∈ packages ->
  declared_in py_str w vendor_dir p = Raise e ->
  e <> OutOfScope ->
  exists w' e',
    update_elm_package py_str vendor_dir (config :: rest) packages w
    = (w', Raise e')
    /\ files w' = files w.
Proof.
  intros Hp Hd _.
  change (update_elm_package py_str vendor_dir (config :: rest) packages w)
    with (update_loop py_str vendor_dir packages (config :: rest) (JStr "") w).
  rewrite update_loop_cons.
  destruct (update_config py_str vendor_dir packages config w) as [w' [r|e']] eqn:Hc.
  - exfalso.
    destruct (update_config_inv _ _ _ _ _ _ _ Hc)
      as (data & data' & _ & _ & _ & Hm & _).
    destruct (merge_packages_ok _ _ _ _ _ _ _ Hm) as (Hs & _ & _).
    unfold settled in Hs. rewrite Forall_forall in Hs.
    destruct (Hs p Hp) as (listed & names & _ & Hd' & _). congruence.
  - exists w', e'. split; [done |]. by eapply update_config_raise_files.
Qed.

(** The updater prints nothing and starts no process, whether it returns or
    raises. *)
Theorem update_elm_package_quiet (configs : list string) (w : world) :
  same_env w (update_elm_package py_str vendor_dir configs packages w).1.
Proof.
  destruct (update_elm_package py_str vendor_dir configs packages w) as [w' r] eqn:E.
  by apply (quiet_update_elm_package py_str vendor_dir configs packages w w' r).
Qed.

End Added.

(** *** The whole run *)

Section MainRun.

Variable py_str : json -> string.





End MainRun.

(** *** The skip check, exactly *)







Section SkipExact.

Variable py_str : json -> string.





End SkipExact.

(** *** The added properties on the project of the scenario *)

(** The project with a directory where the marker of the package goes. *)
Definition w_marked : world :=
  World project_files
        {["tests"; "vendor/assets/elm/elm-lang/navigation-2.0.0-tar.gz"]}
        (fun _ => None) github [] []
        (fun _ => None) (fun _ => None) (fun _ => None).

(** A package that the network does not have. *)
Definition unpublished : package := Package "elm-lang" "html" (JStr "9.9.9").


Lemma project_no_alias :
  no_alias str_of_other "vendor/assets/elm" [navigation]
           ["tests/elm-package.json"; "elm-package.json"].
Proof.
  intros config p Hc ->%list_elem_of_singleton.
  apply elem_of_cons in Hc as [->|Hc]; [discriminate |].
  apply list_elem_of_singleton in Hc as ->. discriminate.
Defined.



Lemma filter_packages_drops_directories_witness :
  (filter_packages str_of_other "vendor/assets/elm" [navigation] w_marked).2 = Ok [].
Proof.
  apply filter_packages_drops_directories.
  - repeat constructor.
  - intros p ->%list_elem_of_singleton. vm_compute. reflexivity.
Defined.

Lemma format_url_of_key_witness :
  Forall2 (fun kv p =>
             format_url str_of_other p
             = if Str.is_ascii kv.1 && encodable kv.2
               then Ok ("https://github.com/" +:+ kv.1 +:+ "/archive/"
                          +:+ str_format str_of_other kv.2 +:+ ".tar.gz")
               else Raise UnicodeEncodeError)
          [("elm-lang/navigation", JStr "2.0.0")] [navigation]
  /\ (forall vendor_dir w w' fetched,
        fetch_packages str_of_other vendor_dir [navigation] w = (w', Ok fetched) ->
        stdout w'
        = stdout w ++ ((fun kv => "Downloading " +:+ kv.1 +:+ " "
                                    +:+ str_format str_of_other kv.2)
                         <$> [("elm-lang/navigation", JStr "2.0.0")])).
Proof. apply format_url_of_key. reflexivity. Defined.

Lemma munge_names_commands_witness :
  exists w',
    munge_names str_of_other "vendor/assets/elm"
      (JStr "https://github.com/acme/app.git") [navigation] w_updated = (w', Ok tt)
    /\ procs w' = procs w_updated
                  ++ (find_sed str_of_other "vendor/assets/elm" "acme" "app"
                        <$> [navigation]).
Proof.
  apply (proj1 (munge_names_commands str_of_other "vendor/assets/elm"
                  (JStr "https://github.com/acme/app.git") [navigation] w_updated)).
  - vm_compute. reflexivity.
  - reflexivity.
  - repeat constructor.
  - intros p _. reflexivity.
Defined.

Lemma fetch_packages_result_witness :
  [navigation] = [navigation]
  /\ stdout w_fetched
     = stdout w_filtered ++ (download_line str_of_other <$> [navigation])
  /\ procs w_fetched = procs w_filtered
  /\ keeps_files w_filtered w_fetched
  /\ (forall p, p ∈ [navigation] ->
        is_Some (files w_fetched !! marker_path str_of_other "vendor/assets/elm" p)
        /\ is_Some (remote w_filtered (package_url str_of_other p))).
Proof.
  apply (fetch_packages_result str_of_other "vendor/assets/elm" [navigation]
           [navigation] w_filtered w_fetched).
  vm_compute. reflexivity.
Defined.

Lemma fetch_packages_fail_fast_witness :
  exists w',
    fetch_packages str_of_other "vendor/assets/elm" (unpublished :: [navigation])
                   w_start = (w', Raise URLError)
    /\ files w' = files w_start
    /\ stdout w' = stdout w_start ++ [download_line str_of_other unpublished]
    /\ procs w' = procs w_start.
Proof.
  apply fetch_packages_fail_fast.
  - reflexivity.
  - vm_compute. reflexivity.
Defined.



Lemma update_elm_package_adds_references_witness :
  exists indent data data',
    files w_fetched !! "elm-package.json" = Some (Json indent data)
    /\ files w_updated !! "elm-package.json" = Some (Json (Some 4) data')
    /\ (getitem data' "source-directories" = getitem data "source-directories"
        \/ exists items extra,
             getitem data "source-directories" = Ok (JArr items)
             /\ getitem data' "source-directories" = Ok (JArr (items ++ extra))
             /\ Forall (fun v => exists x,
                          v = JStr x
                          /\ declared_reference str_of_other "vendor/assets/elm"
                               [navigation] w_fetched "elm-package.json" x)
                       extra).
Proof.
  apply (update_elm_package_adds_references str_of_other "vendor/assets/elm"
           [navigation] ["tests/elm-package.json"; "elm-package.json"]
           w_fetched w_updated (JStr "https://github.com/acme/app.git")).
  - exact project_no_alias.
  - vm_compute. reflexivity.
  - right. left.
Defined.

Lemma update_elm_package_complete_witness :
  exists data listed dir_names,
    files w_updated !! "tests/elm-package.json" = Some (Json (Some 4) data)
    /\ declared_in str_of_other w_fetched "vendor/assets/elm" navigation = Ok listed
    /\ py_iter listed = Ok dir_names
    /\ Forall (fun dir_name =>
                 exists reference,
                   join_relative (ascent "tests/elm-package.json")
                     (package_path str_of_other "vendor/assets/elm" navigation)
                     dir_name = Ok reference
                   /\ listed_has data reference)
              dir_names.
Proof.
  apply (update_elm_package_complete str_of_other "vendor/assets/elm" [navigation]
           ["tests/elm-package.json"; "elm-package.json"] w_fetched w_updated
           (JStr "https://github.com/acme/app.git")).
  - exact project_no_alias.
  - vm_compute. reflexivity.
  - left.
  - left.
Defined.

Lemma update_elm_package_needs_metadata_witness :
  exists w' e',
    update_elm_package str_of_other "vendor/assets/elm"
      ("elm-package.json" :: ["tests/elm-package.json"]) [navigation] w_filtered
    = (w', Raise e')
    /\ files w' = files w_filtered.
Proof.
  apply (update_elm_package_needs_metadata str_of_other "vendor/assets/elm"
           [navigation] "elm-package.json" ["tests/elm-package.json"] navigation
           w_filtered (IOError ENOENT)).
  - left.
  - vm_compute. reflexivity.
  - discriminate.
Defined.



(** The project of the scenario with a manifest that asks for a package the
    network does not have. *)


(** The world a fetch of [navigation] and then [unpublished] ends in. *)
Definition w_half_fetched : world :=
  (fetch_packages str_of_other "vendor/assets/elm" [navigation; unpublished]
     w_filtered).1.

Lemma parse_json_no_slash_witness :
  (exists fields,
      JObj [("elm-lang/navigation", JStr "2.0.0")] = JObj fields
      /\ length [navigation] = length fields)
  /\ Forall (fun p => Str.count "/" (namespace p) = 0
                      /\ Str.count "/" (name p) = 0) [navigation].
Proof.
  apply (parse_json_no_slash (JObj [("elm-lang/navigation", JStr "2.0.0")])).
  reflexivity.
Defined.


Lemma fetch_packages_failure_witness :
  exists fetched p rest,
    [navigation; unpublished] = fetched ++ p :: rest
    /\ stdout w_half_fetched
       = stdout w_filtered ++ (download_line str_of_other <$> fetched ++ [p])
    /\ procs w_half_fetched = procs w_filtered
    /\ keeps_files w_filtered w_half_fetched
    /\ (forall q, q ∈ fetched ->
          is_Some (files w_half_fetched
                     !! marker_path str_of_other "vendor/assets/elm" q)).
Proof.
  apply (fetch_packages_failure str_of_other "vendor/assets/elm"
           [navigation; unpublished] w_filtered w_half_fetched URLError).
  - repeat constructor.
  - discriminate.
  - vm_compute. reflexivity.
Defined.

